(** * Wallit server: the user account service

    A shallow embedding of the request handlers of the user controller
    ([createUser], [authenticateUser], [findUserByEmail], [getUserById]), of
    the field validator they share, of the error factory and error handler
    and of the routes, with the properties of the system's specification
    stated and proved over it.

    JavaScript values are a small tagged union, objects are finite maps from
    property names to values, the table of users is a list of rows with its
    auto-increment counter, and a handler is a function from the database to
    the database and the response it sends. *)

From Stdlib Require Import ZArith Ascii.
From stdpp Require Import base option strings list gmap pretty.

Local Open Scope string_scope.
Local Open Scope list_scope.

(** ** JavaScript values *)

(** The values a property can hold. An object that is not a function (a
    plain object, an array, a Date) is known by the text its conversion to a
    string gives, and so is a function. Numbers are the integers. *)
Inductive value : Type :=
  | VUndefined
  | VNull
  | VBool (b : bool)
  | VNum (n : Z)
  | VStr (s : string)
  | VObject (text : string)
  | VFunction (text : string).

#[global] Instance value_eq_dec : EqDecision value.
Proof. solve_decision. Defined.

(** JavaScript truthiness: [undefined], [null], [false], [0] and the empty
    string are falsy, everything else is truthy. *)
Definition truthy (v : value) : bool :=
  match v with
  | VUndefined | VNull => false
  | VBool b => b
  | VNum n => negb (n =? 0)%Z
  | VStr s => negb (String.eqb s "")
  | VObject _ | VFunction _ => true
  end.

(** [typeof v]. *)
Definition typeof (v : value) : string :=
  match v with
  | VUndefined => "undefined"
  | VNull | VObject _ => "object"
  | VBool _ => "boolean"
  | VNum _ => "number"
  | VStr _ => "string"
  | VFunction _ => "function"
  end.

(** *** Numbers as text *)

(** The double nearest to a natural number, ties to even. *)
Definition to_double (m : Z) : Z :=
  let bits := (Z.log2 m + 1)%Z in
  if (bits <=? 53)%Z then m
  else
    let shift := (bits - 53)%Z in
    let q := Z.shiftr m shift in
    let rest := (m - Z.shiftl q shift)%Z in
    let half := Z.shiftl 1 (shift - 1) in
    let q' := if (half <? rest)%Z || ((rest =? half)%Z && Z.odd q) then (q + 1)%Z else q in
    Z.shiftl q' shift.

(** The number with the fewest significant digits that reads back as the
    double [m]: with [k] digits, for the least [k] that has one; of two, the
    one nearer to [m]. *)
Fixpoint shortest (m : Z) (digits : nat) (ks : list nat) : Z :=
  match ks with
  | [] => m
  | k :: ks =>
      let p := (10 ^ Z.of_nat (digits - k))%Z in
      let lo := (m / p * p)%Z in
      let hi := (lo + p)%Z in
      let lo_ok := (to_double lo =? m)%Z in
      let hi_ok := (to_double hi =? m)%Z in
      if lo_ok && (negb hi_ok || (m - lo <=? hi - m)%Z) then lo
      else if hi_ok then hi
      else shortest m digits ks
  end.

Fixpoint drop_zeros (reversed : list ascii) : list ascii :=
  match reversed with
  | c :: rest => if Ascii.eqb c "0" then drop_zeros rest else reversed
  | [] => []
  end.

(** The digits a natural number is written with: those of the shortest
    number that reads back as it, at most 17 of them significant. *)
Definition written (m : Z) : string :=
  pretty (shortest m (String.length (pretty m)) (seq 1 17)).

(** A natural number of 22 digits or more in exponent form: the first of
    its digits, a point and the others up to the last that is not 0, and
    the exponent. *)
Definition exponent_form (m : Z) : string :=
  let text := written m in
  let e := (Z.of_nat (String.length text) - 1)%Z in
  match text with
  | String d rest =>
      let frac := rev (drop_zeros (rev (String.list_ascii_of_string rest))) in
      String d (match frac with
                | [] => ""
                | _ => "." +:+ String.string_of_list_ascii frac
                end)
      +:+ "e+" +:+ pretty e
  | EmptyString => text
  end.

(** The text of an integer: below 2^53 every integer is a double and is
    written in full; from there to 10^21 it is written with the digits that
    tell it from the doubles next to it and zeros after them; from 10^21 on
    in exponent form. *)
Definition number_text (n : Z) : string :=
  let m := Z.abs n in
  let text :=
    if (m <? 2 ^ 53)%Z then pretty m
    else if (m <? 10 ^ 21)%Z then written m
    else exponent_form m in
  if (n <? 0)%Z then "-" +:+ text else text.

(** What a template literal or a concatenation prints for a value. *)
Definition template (v : value) : string :=
  match v with
  | VUndefined => "undefined"
  | VNull => "null"
  | VBool true => "true"
  | VBool false => "false"
  | VNum n => number_text n
  | VStr s => s
  | VObject text | VFunction text => text
  end.

(** *** Objects *)

(** A plain object: its own enumerable properties. *)
Abbreviation obj := (gmap string value).

(** What every plain object inherits from [Object.prototype]. *)
Definition native (name : string) : value :=
  VFunction ("function " +:+ name +:+ "() { [native code] }").

Definition Object_prototype : obj :=
  {[ "constructor" := native "Object";
     "toString" := native "toString";
     "toLocaleString" := native "toLocaleString";
     "valueOf" := native "valueOf";
     "hasOwnProperty" := native "hasOwnProperty";
     "isPrototypeOf" := native "isPrototypeOf";
     "propertyIsEnumerable" := native "propertyIsEnumerable";
     "__defineGetter__" := native "__defineGetter__";
     "__defineSetter__" := native "__defineSetter__";
     "__lookupGetter__" := native "__lookupGetter__";
     "__lookupSetter__" := native "__lookupSetter__";
     "__proto__" := VObject "[object Object]" ]}.

(** Property access [o[k]]: the object's own property, else the inherited
    one, else [undefined]. *)
Definition prop (o : obj) (k : string) : value :=
  match o !! k with
  | Some v => v
  | None => default VUndefined (Object_prototype !! k)
  end.

(** [Object.keys(o).length === 0]. *)
Definition no_keys (o : obj) : bool := bool_decide (o = ∅).

(** The members [JSON.stringify] writes: a property whose value is
    [undefined] or a function is left out. *)
Definition json_member (v : value) : bool :=
  match v with
  | VUndefined | VFunction _ => false
  | _ => true
  end.

Definition json_members (o : obj) : obj := filter (λ kv, json_member kv.2 = true) o.

(** ** src/lib/error.js *)

(** An [Error] object: its message and the [code] property the application
    attaches. Errors thrown by a library carry no code. *)
Record Error : Type := mkError { code : option Z; message : string }.

#[global] Instance Error_eq_dec : EqDecision Error.
Proof. solve_decision. Defined.

(** [x || d] on an optional number. *)
Definition or_code (c : option Z) (d : Z) : Z :=
  match c with
  | Some n => if (n =? 0)%Z then d else n
  | None => d
  end.

(** [s || d] on a string. *)
Definition or_text (s d : string) : string := if String.eqb s "" then d else s.

Definition createError (c : option Z) (msg : option string) : Error :=
  {| message := or_text (default "" msg) "Oops! something went wrong.";
     code := Some (or_code c 500) |}.

(** The body handed to [res.send]: a text, or an object sent as JSON. *)
Inductive Body : Type :=
  | Text (s : string)
  | Json (o : obj).

Record Response : Type := mkResponse { status : Z; body : Body }.

(** What a handler leaves behind: the response and the lines written to the
    console. *)
Record Outcome : Type := mkOutcome { response : Response; console : list string }.

(** [errorHandler] first fills in a missing code and a missing message, in
    place, then logs and answers with what the error now holds. *)
Definition errorHandler (error : Error) : Outcome :=
  let code := or_code (code error) 500 in
  let message := or_text (message error) "Oops! Something went wrong" in
  {| console := ["Status Code " +:+ pretty code +:+ ": " +:+ message];
     response := {| status := code; body := Text message |} |}.

(** The outcome of a request that ended in the error handler with the code
    [c] and the message [msg]. *)
Definition failure (c : Z) (msg : string) : Outcome :=
  {| response := {| status := c; body := Text msg |};
     console := ["Status Code " +:+ pretty c +:+ ": " +:+ msg] |}.

(** The outcome of a request that was answered by the controller itself. *)
Definition success (res : Response) : Outcome := {| response := res; console := [] |}.

(** ** The field validator (lib/helpers) *)

(** The callback of [fieldsToValidate.forEach]: a throw leaves the loop, so
    the first offending field decides. *)
Fixpoint forEach_field (entity rules : obj) (fields : list string) : Error + unit :=
  match fields with
  | [] => inr tt
  | field :: rest =>
      if truthy (prop rules field) && negb (truthy (prop entity field))
      then inl (createError (Some 400%Z)
                  (Some (template (prop rules field) +:+ " cannot be undefined")))
      else forEach_field entity rules rest
  end.

(** Each argument may be absent ([None] for [undefined] or [null]); an
    entity and the rules are plain objects. *)
Definition validateFields (entityToValidate rules : option obj)
    (fieldsToValidate : option (list string)) : Error + unit :=
  match entityToValidate with
  | None => inl (createError (Some 400%Z) (Some "Entity to validate cannot be undefined or empty"))
  | Some entity =>
      if no_keys entity
      then inl (createError (Some 400%Z) (Some "Entity to validate cannot be undefined or empty"))
      else
        match rules with
        | None => inl (createError (Some 400%Z) (Some "Rules cannot be undefined or empty"))
        | Some rules =>
            if no_keys rules
            then inl (createError (Some 400%Z) (Some "Rules cannot be undefined or empty"))
            else
              match fieldsToValidate with
              | None | Some [] =>
                  inl (createError (Some 400%Z) (Some "Fields to validate cannot be undefined or empty"))
              | Some fields => forEach_field entity rules fields
              end
        end
  end.

(** ** The users table (the [User] model, models/User) *)

(** One row of the table [users]: the columns the model defines and the two
    time stamps [define] adds to them. A time stamp is a Date, known by its
    text. *)
Record UserRow : Type := mkUser {
  id : Z;
  firstname : string;
  lastname : string;
  email : string;
  password : string;
  createdAt : string;
  updatedAt : string
}.

(** The time stamps a new row is given: the instant of the insertion, unless
    the values inserted bring a [createdAt] of their own. *)
Record Stamps : Type := mkStamps { created : string; updated : string }.

(** The statements that reached the table, oldest first. *)
Inductive Statement : Type :=
  | Select (where_email : value)
  | SelectByPk (key : value)
  | Insert (row : UserRow).

(** The database: the rows in insertion order, the next value of the
    auto-increment key and the statements run so far. *)
Record Database : Type := mkDatabase {
  rows : list UserRow;
  auto_increment : Z;
  statements : list Statement
}.

(** The table right after start-up: [sequelize.sync({force: true})] drops and
    recreates it. *)
Definition synced : Database :=
  {| rows := []; auto_increment := 1; statements := [] |}.

(** The database after a query by email: the rows are as they were and the
    query is on record. *)
Definition looked_up (v : value) (db : Database) : Database :=
  {| rows := rows db;
     auto_increment := auto_increment db;
     statements := statements db ++ [Select v] |}.

(** What the program takes from its libraries and from the storage engine,
    none of which is part of the repository:
    - [where_eq v e]: the engine's test [email = v] of a [where] clause
      against a stored email [e];
    - [isEmail]: the validator behind [validate: { isEmail: true }];
    - [bcrypt_digest p rounds salt]: the hash [bcrypt.hash] computes for the
      text [p] when the salt it draws is [salt], or its rejection;
    - [bcrypt_verify p hash]: what [bcrypt.compare] finds for the text [p]
      and the text [hash], or its rejection;
    - [engine_int s]: the integer the engine reads from the text [s] for an
      integer column, or its refusal;
    - [engine_text v]: the text the engine keeps in a [STRING] column for a
      number or a boolean [v], or its refusal; for a value that is truthy
      that text is not empty. *)
Class Libraries : Type := {
  where_eq : value → string → bool;
  isEmail : string → bool;
  bcrypt_digest : string → Z → string → Error + string;
  bcrypt_verify : string → string → Error + bool;
  engine_int : string → Error + Z;
  engine_text : value → Error + string;
  engine_text_truthy (v : value) (s : string) :
    truthy v = true → engine_text v = inr s → s ≠ ""
}.

(** An error thrown by a library: it has a message and no [code]. *)
Definition library_error (name : string) : Error := {| code := None; message := name |}.

(** [bcrypt.hash(s, rounds)]: anything but a text is rejected as an illegal
    argument. *)
Definition bcrypt_hash `{Libraries} (s : value) (rounds : Z) (salt : string)
    : Error + string :=
  match s with
  | VStr p => bcrypt_digest p rounds salt
  | _ => inl (library_error ("Illegal arguments: " +:+ typeof s +:+ ", number"))
  end.

(** [bcrypt.compare(s, hash)]: both must be texts. *)
Definition bcrypt_compare `{Libraries} (s hash : value) : Error + bool :=
  match s, hash with
  | VStr p, VStr h => bcrypt_verify p h
  | _, _ =>
      inl (library_error ("Illegal arguments: " +:+ typeof s +:+ ", " +:+ typeof hash))
  end.

(** A transparent instance to run the model on: exact comparison of texts, an
    email is a text with an [@], a "hash" that keeps the salt and the
    password readable, no text read as an integer, a number kept by its
    digits and a boolean as 1 or 0. It stands in for the real libraries in
    the examples only. *)
Definition plain_hash (p salt : string) : string := "$2a$12$" +:+ salt +:+ "$" +:+ p.

Definition plain_compare (p h : string) : bool :=
  String.eqb (String.substring (String.length h - String.length p - 1) (String.length p + 1) h)
             ("$" +:+ p).

Definition plain_text (v : value) : Error + string :=
  match v with
  | VNum n =>
      match pretty n with
      | "" => inl (library_error "Incorrect string value")
      | digits => inr digits
      end
  | VBool b => inr (if b then "1" else "0")
  | _ => inl (library_error "Incorrect string value")
  end.

Definition plain_libraries : Libraries.
Proof.
  refine {| where_eq v e := match v with VStr s => String.eqb s e | _ => false end;
            isEmail e := bool_decide ("@"%char ∈ String.list_ascii_of_string e);
            bcrypt_digest p rounds salt := inr (plain_hash p salt);
            bcrypt_verify p h := inr (plain_compare p h);
            engine_int s := inl (library_error "Incorrect integer value");
            engine_text := plain_text |}.
  intros v s. destruct v as [| |[|]|n| | |]; simpl; try done.
  - by intros _ [= <-].
  - destruct (pretty n); [done|]. by intros _ [= <-].
Defined.

(** ** Handlers as computations over the database *)

(** A computation reads and writes the database and either throws an error or
    returns. Every [await] of the source is one sequencing step. *)
Definition M (A : Type) : Type := Database → Database * (Error + A).

#[global] Instance M_ret : MRet M := λ A a db, (db, inr a).

#[global] Instance M_bind : MBind M := λ A B k m db,
  match m db with
  | (db', inr a) => k a db'
  | (db', inl e) => (db', inl e)
  end.

Definition throw {A : Type} (e : Error) : M A := λ db, (db, inl e).

(** A synchronous call that may throw. *)
Definition sync {A : Type} (r : Error + A) : M A := λ db, (db, r).

(** [try { ... } catch (error) { next(error, req, res, next) }]: an error goes
    to the error handler, the last middleware of the application. *)
Definition catch_next (m : M Response) (db : Database) : Database * Outcome :=
  match m db with
  | (db', inr res) => (db', success res)
  | (db', inl error) => (db', errorHandler error)
  end.

Section UserController.
Context `{Libraries}.

(** *** The [User] model *)

(** The [dataValues] of an instance read from a row: all columns, or the
    columns named by the [attributes] option of the query. *)
Definition dataValues (attributes : option (list string)) (r : UserRow) : obj :=
  let all : obj :=
    {[ "id" := VNum (id r);
       "firstname" := VStr (firstname r);
       "lastname" := VStr (lastname r);
       "email" := VStr (email r);
       "password" := VStr (password r);
       "createdAt" := VObject (createdAt r);
       "updatedAt" := VObject (updatedAt r) ]} in
  match attributes with
  | None => all
  | Some names => filter (λ kv, kv.1 ∈ names) all
  end.

(** The row a query by email returns: the first one whose email the engine
    finds equal to the value asked for. *)
Definition row_with_email (where_email : value) (db : Database) : option UserRow :=
  List.find (λ r, where_eq where_email (email r)) (rows db).

(** [User.findOne({ where: { email }, attributes })]: the instance of that
    row, or [null]. *)
Definition User_findOne (where_email : value) (attributes : option (list string))
    : M (option obj) :=
  λ db,
    (looked_up where_email db,
     inr (dataValues attributes <$> row_with_email where_email db)).

(** The text a [STRING] column keeps for a value: a text as it is, a number
    or a boolean as the engine writes it. [null] and [undefined] break
    [allowNull: false]; an object is no text. *)
Definition column_text (v : value) : Error + string :=
  match v with
  | VStr s => inr s
  | VNum _ | VBool _ => engine_text v
  | VUndefined | VNull | VObject _ | VFunction _ =>
      inl (library_error "SequelizeValidationError")
  end.

(** The key asked for by the [id] of the object, if any: none for [null],
    [undefined] and what the engine reads as 0, which all leave the key to
    the auto-increment counter. A text goes to the engine as it is, an
    object by its text. *)
Definition requested_key (v : value) : Error + option Z :=
  let key (n : Z) : option Z := if (n =? 0)%Z then None else Some n in
  match v with
  | VUndefined | VNull => inr None
  | VNum n => inr (key n)
  | VBool b => inr (key (if b then 1 else 0)%Z)
  | VStr s | VObject s | VFunction s =>
      match engine_int s with
      | inr n => inr (key n)
      | inl error => inl error
      end
  end.

(** The key of a new row: the one asked for, else the auto-increment value;
    it must fit the [INTEGER] column and be unused. *)
Definition primary_key (v : value) (db : Database) : Error + Z :=
  match requested_key v with
  | inl error => inl error
  | inr asked =>
      let k := default (auto_increment db) asked in
      if negb ((-2147483648 <=? k)%Z && (k <=? 2147483647)%Z)
      then inl (library_error "SequelizeDatabaseError")
      else if existsb (λ r, (id r =? k)%Z) (rows db)
      then inl (library_error "SequelizeUniqueConstraintError")
      else inr k
  end.

(** [User.create(values)]: [firstname], [lastname] and [password] are kept
    as texts, the email must be a text that passes [isEmail], and the row
    gets the time stamps [stamps]. One row is inserted and the instance
    comes back: the values given, with the key of the row and the time
    stamps. Anything else is refused and nothing is inserted. *)
Definition User_create (values : obj) (stamps : Stamps) : M obj :=
  λ db,
    match column_text (prop values "firstname"), column_text (prop values "lastname"),
          prop values "email", column_text (prop values "password") with
    | inr f, inr l, VStr e, inr p =>
        if isEmail e then
          match primary_key (prop values "id") db with
          | inr k =>
              let r := {| id := k; firstname := f; lastname := l;
                          email := e; password := p;
                          createdAt := created stamps;
                          updatedAt := updated stamps |} in
              ({| rows := rows db ++ [r];
                  auto_increment := Z.max (auto_increment db) (k + 1);
                  statements := statements db ++ [Insert r] |},
               inr (<["id" := VNum k]>
                      (<["createdAt" := VObject (created stamps)]>
                         (<["updatedAt" := VObject (updated stamps)]> values))))
          | inl error => (db, inl error)
          end
        else (db, inl (library_error "SequelizeValidationError"))
    | inl error, _, _, _ => (db, inl error)
    | _, inl error, _, _ => (db, inl error)
    | _, _, _, inl error => (db, inl error)
    | _, _, _, _ => (db, inl (library_error "SequelizeValidationError"))
    end.

(** *** src/controllers/user.js *)

Definition validationRules : obj :=
  {[ "id" := VStr "ID";
     "firstname" := VStr "Firstname";
     "lastname" := VStr "Lastname";
     "email" := VStr "Email";
     "password" := VStr "Password" ]}.

Definition validateUser (user : option obj) (fieldsToValidate : list string)
    : Error + unit :=
  match user with
  | None => inl (createError (Some 400%Z) (Some "User cannot be undefined"))
  | Some _ => validateFields user (Some validationRules) (Some fieldsToValidate)
  end.

Definition validateEmail (email : value) : M unit :=
  if negb (truthy email)
  then throw (createError (Some 400%Z) (Some "Email cannot be undefined"))
  else
    user ← User_findOne email None;
    match user with
    | Some _ => throw (createError (Some 409%Z) (Some "This email is already taken."))
    | None => mret tt
    end.

Definition getUserByEmail (email : value) : M obj :=
  if negb (truthy email)
  then throw (createError (Some 400%Z) (Some "Invalid email"))
  else
    user ← User_findOne email (Some ["id"; "firstname"; "lastname"; "email"]);
    match user with
    | None => throw (createError (Some 400%Z) (Some "Could not find a user with the given email"))
    | Some user => mret user
    end.

(** The [try] block of [createUser]; [body] is [req.body], [salt] the salt
    [bcrypt.hash] draws and [stamps] the time stamps of the insertion. After
    [validateUser] the body is an object. *)
Definition createUser_try (body : option obj) (salt : string) (stamps : Stamps)
    : M Response :=
  _ ← sync (validateUser body ["firstname"; "lastname"; "email"; "password"]);
  match body with
  | None => throw (library_error "TypeError")
  | Some user =>
      _ ← validateEmail (prop user "email");
      hashedPassword ← sync (bcrypt_hash (prop user "password") 12 salt);
      let user := <["password" := VStr hashedPassword]> user in
      savedUser ← User_create user stamps;
      mret {| status := 201; body := Text (template (prop savedUser "id")) |}
  end.

Definition createUser (body : option obj) (salt : string) (stamps : Stamps)
    : Database → Database * Outcome :=
  catch_next (createUser_try body salt stamps).

(** The [try] block of [authenticateUser]; [body] is [req.body]. *)
Definition authenticateUser_try (body : option obj) : M Response :=
  _ ← sync (validateUser body ["email"; "password"]);
  match body with
  | None => throw (library_error "TypeError")
  | Some credentials =>
      user ← User_findOne (prop credentials "email") None;
      match user with
      | None => throw (createError (Some 401%Z) (Some "Invalid credentials"))
      | Some user =>
          isValid ← sync (bcrypt_compare (prop credentials "password") (prop user "password"));
          if negb isValid
          then throw (createError (Some 401%Z) (Some "Invalid credentials"))
          else mret {| status := 200; body := Json (<["password" := VUndefined]> user) |}
      end
  end.

Definition authenticateUser (body : option obj) : Database → Database * Outcome :=
  catch_next (authenticateUser_try body).

(** The [try] block of [findUserByEmail]; [query] is [req.query]. *)
Definition findUserByEmail_try (query : obj) : M Response :=
  user ← getUserByEmail (prop query "email");
  mret {| status := 200; body := Json user |}.

Definition findUserByEmail (query : obj) : Database → Database * Outcome :=
  catch_next (findUserByEmail_try query).

End UserController.

(** ** The routes (routes/user) *)

(** A request the router knows: [POST /users] with its body, the salt
    [bcrypt.hash] will draw and the time stamps of the insertion, [POST
    /users/authenticate] with its body, and [GET /users] with its query. *)
Inductive Request : Type :=
  | POST_users (body : option obj) (salt : string) (stamps : Stamps)
  | POST_users_authenticate (body : option obj)
  | GET_users (query : obj).

Section Application.
Context `{Libraries}.

(** [router.post("", createUser)], [router.post("/authenticate",
    authenticateUser)] and [router.get("", findUserByEmail)], mounted on
    [/users]. *)
Definition router (request : Request) : Database → Database * Outcome :=
  match request with
  | POST_users body salt stamps => createUser body salt stamps
  | POST_users_authenticate body => authenticateUser body
  | GET_users query => findUserByEmail query
  end.

(** Requests served one after the other; the database after the last one and
    the outcomes in order. *)
Fixpoint serve (requests : list Request) (db : Database) : Database * list Outcome :=
  match requests with
  | [] => (db, [])
  | request :: rest =>
      let (db1, out) := router request db in
      let (db2, outs) := serve rest db1 in
      (db2, out :: outs)
  end.

(** What a row inserted by the registration [user] with the salt [salt]
    holds: the texts of the body, none of them empty, an email the validator
    accepts, and the hash of the password. *)
Definition registered_by (user : obj) (salt : string) (r : UserRow) : Prop :=
  prop user "firstname" = VStr (firstname r)
  ∧ prop user "lastname" = VStr (lastname r)
  ∧ prop user "email" = VStr (email r)
  ∧ bcrypt_hash (prop user "password") 12 salt = inr (password r)
  ∧ firstname r ≠ "" ∧ lastname r ≠ "" ∧ email r ≠ ""
  ∧ isEmail (email r) = true.

(** *** [getUserById] *)

(** [key_eq v k] is the engine's test [id = v] against a stored key [k]. *)
Variable key_eq : value → Z → bool.

(** The database after a query by key. *)
Definition looked_up_by_key (key : value) (db : Database) : Database :=
  {| rows := rows db;
     auto_increment := auto_increment db;
     statements := statements db ++ [SelectByPk key] |}.

(** [User.findByPk(id)]: the instance of the first row with that key, or
    [null]. *)
Definition User_findByPk (key : value) : M (option obj) :=
  λ db,
    (looked_up_by_key key db,
     inr (dataValues None <$> List.find (λ r, key_eq key (id r)) (rows db))).

Definition getUserById (id : value) : M obj :=
  if negb (truthy id)
  then throw (createError (Some 400%Z) (Some "User ID cannot be undefined"))
  else
    user ← User_findByPk id;
    match user with
    | None =>
        throw (createError (Some 400%Z)
                 (Some ("A user with the given ID " +:+ template id +:+ " could not be found")))
    | Some user => mret user
    end.

End Application.

(** A transparent comparison of a query value with a key, to run
    [getUserById] on: a number is compared exactly, nothing else matches. *)
Definition plain_key_eq (v : value) (k : Z) : bool :=
  match v with
  | VNum n => (n =? k)%Z
  | _ => false
  end.

(** ** Sample data *)

(** The registration of the specification's round trip, the row and the
    table it leads to under [plain_libraries] with the salt "salt" at the
    instant [sample_instant]. *)
Definition sample_instant : string :=
  "Mon Nov 02 2026 10:00:00 GMT+0000 (Coordinated Universal Time)".

Definition sample_stamps : Stamps :=
  {| created := sample_instant; updated := sample_instant |}.

Definition sample_registration : obj :=
  {[ "firstname" := VStr "A"; "lastname" := VStr "B";
     "email" := VStr "a@b.com"; "password" := VStr "secret" ]}.

Definition sample_row : UserRow :=
  {| id := 1; firstname := "A"; lastname := "B"; email := "a@b.com";
     password := plain_hash "secret" "salt";
     createdAt := sample_instant; updatedAt := sample_instant |}.

Definition sample_table : Database :=
  {| rows := [sample_row]; auto_increment := 2;
     statements := [Select (VStr "a@b.com"); Insert sample_row] |}.

Definition sample_credentials (password : string) : obj :=
  {[ "email" := VStr "a@b.com"; "password" := VStr password ]}.

(** ** Properties of values and objects *)

(** Numbers as JavaScript writes them. *)
Lemma number_text_examples :
  number_text (10 ^ 21) = "1e+21"
  ∧ number_text (2 ^ 70) = "1.1805916207174113e+21"
  ∧ number_text (15 * 10 ^ 20) = "1.5e+21"
  ∧ number_text (- 10 ^ 22) = "-1e+22"
  ∧ number_text 123456789012345683968 = "123456789012345680000"
  ∧ number_text (2 ^ 53) = "9007199254740992"
  ∧ number_text (2 ^ 53 + 2) = "9007199254740994"
  ∧ number_text (2 ^ 64) = "18446744073709552000"
  ∧ number_text 0 = "0" ∧ number_text (-42) = "-42".
Proof. vm_compute. repeat split. Qed.

Lemma prop_lookup (o : obj) (k : string) (v : value) :
  o !! k = Some v → prop o k = v.
Proof. intros Hk. unfold prop. by rewrite Hk. Qed.

(** A name that is neither the object's own nor inherited reads as
    [undefined]. *)
Lemma prop_absent (o : obj) (k : string) :
  o !! k = None → Object_prototype !! k = None → prop o k = VUndefined.
Proof. intros Hk Hp. unfold prop. by rewrite Hk, Hp. Qed.

(** A truthy property under a name that is not inherited is the object's
    own. *)
Lemma truthy_own (o : obj) (k : string) :
  Object_prototype !! k = None → truthy (prop o k) = true → o ≠ ∅.
Proof.
  intros Hp Ht ->. unfold prop in Ht. by rewrite lookup_empty, Hp in Ht.
Qed.

Lemma prop_insert_ne (o : obj) (k k' : string) (v : value) :
  k' ≠ k → prop (<[k' := v]> o) k = prop o k.
Proof. intros Hk. unfold prop. by rewrite lookup_insert_ne. Qed.

Lemma prop_insert_eq (o : obj) (k : string) (v : value) :
  prop (<[k := v]> o) k = v.
Proof. unfold prop. by rewrite lookup_insert_eq. Qed.

Lemma no_keys_false (o : obj) : o ≠ ∅ → no_keys o = false.
Proof. intros Hne. unfold no_keys. by apply bool_decide_eq_false. Qed.

(** ** Properties of the error handler and of the field validator *)

Lemma or_text_nonempty (s d : string) : s ≠ "" → or_text s d = s.
Proof.
  intros Hs. unfold or_text. destruct (String.eqb s "") eqn:E; [|done].
  apply String.eqb_eq in E. contradiction.
Qed.

(** The error the validator and the controller build: a code and a message
    that is not empty come out as given. *)
Lemma createError_given (c : Z) (msg : string) :
  c ≠ 0%Z → msg ≠ "" →
  createError (Some c) (Some msg) = {| code := Some c; message := msg |}.
Proof.
  intros Hc Hm. unfold createError, or_code. simpl.
  rewrite or_text_nonempty by done.
  destruct (c =? 0)%Z eqn:E; [apply Z.eqb_eq in E; contradiction | done].
Qed.

(** A loop over fields none of which offends runs to its end. *)
Lemma forEach_field_pass (entity rules : obj) (fields : list string) :
  (∀ g, g ∈ fields → truthy (prop rules g) = true → truthy (prop entity g) = true) →
  forEach_field entity rules fields = inr tt.
Proof.
  induction fields as [|f fields IH]; intros Hall; [done|].
  simpl. destruct (truthy (prop rules f)) eqn:Hr; simpl.
  - rewrite (Hall f) by (done || left). simpl. apply IH.
    intros g Hg. apply Hall. by right.
  - apply IH. intros g Hg. apply Hall. by right.
Qed.

(** A loop that runs to its end met no offending field. *)
Lemma forEach_field_inr (entity rules : obj) (fields : list string) :
  forEach_field entity rules fields = inr tt →
  ∀ g, g ∈ fields → truthy (prop rules g) = true → truthy (prop entity g) = true.
Proof.
  induction fields as [|f fields IH]; intros Hrun g Hg Hr.
  - by apply elem_of_nil in Hg.
  - simpl in Hrun.
    destruct (truthy (prop rules f) && negb (truthy (prop entity f))) eqn:E; [done|].
    apply elem_of_cons in Hg as [->|Hg]; [|by apply IH].
    rewrite Hr in E. simpl in E. by apply negb_false_iff in E.
Qed.

(** The loop stops at the first field with a truthy rule and a falsy value. *)
Lemma forEach_field_first (entity rules : obj) (before after : list string) (field : string) :
  (∀ g, g ∈ before → truthy (prop rules g) = true → truthy (prop entity g) = true) →
  truthy (prop rules field) = true →
  truthy (prop entity field) = false →
  forEach_field entity rules (before ++ field :: after)
  = inl (createError (Some 400%Z) (Some (template (prop rules field) +:+ " cannot be undefined"))).
Proof.
  induction before as [|b before IH]; intros Hbefore Hr He; simpl.
  - by rewrite Hr, He.
  - destruct (truthy (prop rules b)) eqn:Hb; simpl.
    + rewrite (Hbefore b) by (done || left). simpl.
      apply IH; [|done..]. intros g Hg. apply Hbefore. by right.
    + apply IH; [|done..]. intros g Hg. apply Hbefore. by right.
Qed.

Lemma cannot_be_undefined_nonempty (label : string) :
  label +:+ " cannot be undefined" ≠ "".
Proof. destruct label; discriminate. Qed.

(** The validator, once its three arguments are there, is the loop. *)
Lemma validateFields_loop (entity rules : obj) (fields : list string) :
  entity ≠ ∅ → rules ≠ ∅ → fields ≠ [] →
  validateFields (Some entity) (Some rules) (Some fields) = forEach_field entity rules fields.
Proof.
  intros He Hr Hf. unfold validateFields.
  rewrite (no_keys_false entity He), (no_keys_false rules Hr).
  by destruct fields.
Qed.

Lemma validationRules_nonempty : validationRules ≠ ∅.
Proof. intros E. by apply (f_equal (λ m : obj, m !! "id")) in E. Qed.

Lemma validationRules_labels :
  prop validationRules "firstname" = VStr "Firstname"
  ∧ prop validationRules "lastname" = VStr "Lastname"
  ∧ prop validationRules "email" = VStr "Email"
  ∧ prop validationRules "password" = VStr "Password".
Proof. done. Qed.

(** [validateUser] passes exactly when the body is an object in which every
    listed field with a rule is truthy. *)
Lemma validateUser_inr (body : option obj) (fields : list string) :
  validateUser body fields = inr tt →
  ∃ user, body = Some user
    ∧ ∀ g, g ∈ fields → truthy (prop validationRules g) = true → truthy (prop user g) = true.
Proof.
  destruct body as [user|]; [|done]. intros Hv. exists user. split; [done|].
  unfold validateUser, validateFields in Hv.
  destruct (no_keys user); [done|].
  destruct (no_keys validationRules); [done|].
  destruct fields as [|f fields]; [done|].
  by apply forEach_field_inr.
Qed.

Lemma validateUser_pass (user : obj) (fields : list string) :
  user ≠ ∅ → fields ≠ [] →
  (∀ g, g ∈ fields → truthy (prop user g) = true) →
  validateUser (Some user) fields = inr tt.
Proof.
  intros Hne Hf Hall. unfold validateUser.
  rewrite validateFields_loop by (done || apply validationRules_nonempty).
  apply forEach_field_pass. auto.
Qed.

Section Properties.
Context `{Libraries}.

(** *** The error handler *)

(** C8 (amended): for every error reaching the error handler, the status of
    the response is the error's code, or 500 when the error has no code or
    the code 0; the body is the error's message as plain text, or the text
    "Oops! Something went wrong" when the message is empty; and the handler
    writes one line to the console, "Status Code <status>: <body>". *)
Theorem errorHandler_response (error : Error) :
  let out := errorHandler error in
  (∀ c, code error = Some c → c ≠ 0%Z → status (response out) = c)
  ∧ (code error = None ∨ code error = Some 0%Z → status (response out) = 500%Z)
  ∧ (message error ≠ "" → body (response out) = Text (message error))
  ∧ (message error = "" → body (response out) = Text "Oops! Something went wrong")
  ∧ ∃ text, body (response out) = Text text
      ∧ console out = ["Status Code " +:+ pretty (status (response out)) +:+ ": " +:+ text].
Proof.
  destruct error as [c m]. simpl. repeat split.
  - intros n [= ->] Hn. unfold or_code.
    destruct (n =? 0)%Z eqn:E; [apply Z.eqb_eq in E; contradiction | done].
  - by intros [->|[= ->]].
  - intros Hm. by rewrite or_text_nonempty.
  - by intros ->.
  - by eexists.
Qed.


Lemma errorHandler_createError (c : Z) (msg : string) :
  c ≠ 0%Z → msg ≠ "" →
  errorHandler (createError (Some c) (Some msg)) = failure c msg.
Proof.
  intros Hc Hm. rewrite createError_given by done.
  unfold errorHandler, failure, or_code. simpl.
  rewrite or_text_nonempty by done.
  destruct (c =? 0)%Z eqn:E; [apply Z.eqb_eq in E; contradiction | done].
Qed.

(** *** The field validator *)

(** [g] is one of the fields listed before the omitted one: it is among the
    required fields and it is another field. *)
Local Ltac other_field Hothers Hg :=
  repeat (apply elem_of_cons in Hg as [->|Hg]);
  [apply Hothers; [repeat constructor | done] .. | by apply elem_of_nil in Hg].

(** X18: [validateFields] fails with 400 when the entity, the rules or the
    list of fields is absent or empty; otherwise, at the first name of the
    list (in list order) whose rule is truthy and whose value in the entity
    is falsy, it fails with 400 and the message "<label> cannot be
    undefined", own and inherited properties alike; consequently a
    registration body that omits one of firstname, lastname, email and
    password, the others being there, is answered by [createUser] with 400 and
    the message naming that field, and the database is left as it was. *)
Theorem validateFields_first_offender :
  (∀ (entity rules : option obj) (fields : option (list string)),
      entity = None ∨ entity = Some ∅ ∨ rules = None ∨ rules = Some ∅
      ∨ fields = None ∨ fields = Some [] →
      ∃ msg, validateFields entity rules fields = inl {| code := Some 400%Z; message := msg |})
  ∧ (∀ (entity rules : obj) (before after : list string) (field : string),
      entity ≠ ∅ → rules ≠ ∅ →
      (∀ g, g ∈ before → truthy (prop rules g) = true → truthy (prop entity g) = true) →
      truthy (prop rules field) = true →
      truthy (prop entity field) = false →
      validateFields (Some entity) (Some rules) (Some (before ++ field :: after))
      = inl {| code := Some 400%Z;
               message := template (prop rules field) +:+ " cannot be undefined" |})
  ∧ (∀ (user : obj) (field salt : string) (stamps : Stamps) (db : Database),
      field ∈ ["firstname"; "lastname"; "email"; "password"] →
      user !! field = None →
      (∀ g, g ∈ ["firstname"; "lastname"; "email"; "password"] → g ≠ field →
            truthy (prop user g) = true) →
      createUser (Some user) salt stamps db
      = (db, failure 400 (template (prop validationRules field) +:+ " cannot be undefined"))).
Proof.
  split; [|split].
  - intros entity rules fields Hcase. unfold validateFields.
    destruct entity as [e|]; [|by eexists].
    destruct (no_keys e) eqn:He; [by eexists|].
    destruct rules as [r|]; [|by eexists].
    destruct (no_keys r) eqn:Hr; [by eexists|].
    destruct fields as [[|f fs]|]; [by eexists| |by eexists].
    apply bool_decide_eq_false in He, Hr.
    destruct Hcase as [?|[[= ->]|[?|[[= ->]|[?|?]]]]]; done.
  - intros entity rules before after field He Hr Hbefore Hrule Hvalue.
    rewrite validateFields_loop by (done || by destruct before).
    rewrite (forEach_field_first _ _ _ _ _ Hbefore Hrule Hvalue).
    f_equal. apply createError_given; [done | apply cannot_be_undefined_nonempty].
  - intros user field salt stamps db Hfield Habsent Hothers.
    assert (Hvalue : truthy (prop user field) = false).
    { rewrite (prop_absent _ _ Habsent); [done|].
      repeat (apply elem_of_cons in Hfield as [->|Hfield]); [done..|].
      by apply elem_of_nil in Hfield. }
    assert (Hne : user ≠ ∅).
    { destruct (decide (field = "firstname")) as [->|];
        [apply (truthy_own user "lastname") | apply (truthy_own user "firstname")];
        (done || (apply Hothers; [repeat constructor | done])). }
    assert (Hv : validateUser (Some user) ["firstname"; "lastname"; "email"; "password"]
                 = inl (createError (Some 400%Z)
                          (Some (template (prop validationRules field) +:+ " cannot be undefined")))).
    { unfold validateUser.
      rewrite validateFields_loop by (done || apply validationRules_nonempty).
      set_unfold in Hfield.
      destruct Hfield as [->|[->|[->|[->|[]]]]].
      - apply (forEach_field_first user validationRules [] _ "firstname"); [|done..].
        intros g Hg. by apply elem_of_nil in Hg.
      - apply (forEach_field_first user validationRules ["firstname"] _ "lastname"); [|done..].
        intros g Hg _. other_field Hothers Hg.
      - apply (forEach_field_first user validationRules ["firstname"; "lastname"] _ "email");
          [|done..].
        intros g Hg _. other_field Hothers Hg.
      - apply (forEach_field_first user validationRules ["firstname"; "lastname"; "email"]
                 _ "password"); [|done..].
        intros g Hg _. other_field Hothers Hg. }
    unfold createUser, catch_next, createUser_try, mbind, M_bind, sync.
    rewrite Hv. f_equal.
    apply errorHandler_createError; [done | apply cannot_be_undefined_nonempty].
Qed.

(** *** Queries by email *)

Lemma row_with_email_None (v : value) (db : Database) :
  row_with_email v db = None ↔ ∀ r, r ∈ rows db → where_eq v (email r) = false.
Proof.
  unfold row_with_email. split.
  - intros Hnone r Hr. apply (find_none _ _ Hnone). by apply list_elem_of_In.
  - intros Hall. induction (rows db) as [|r l IH]; [done|]. simpl.
    rewrite (Hall r) by left. apply IH. intros r' Hr'. apply Hall. by right.
Qed.

(** A row that has the email asked for makes the query find some row. *)
Lemma row_with_email_is_Some (v : value) (db : Database) (r : UserRow) :
  r ∈ rows db → where_eq v (email r) = true → is_Some (row_with_email v db).
Proof.
  intros Hr Heq. destruct (row_with_email v db) as [u|] eqn:E; [by eexists|].
  rewrite (proj1 (row_with_email_None v db) E r Hr) in Heq. discriminate.
Qed.

Lemma dataValues_password (u : UserRow) :
  prop (dataValues None u) "password" = VStr (password u).
Proof. by destruct u. Qed.

Lemma dataValues_id (u : UserRow) : prop (dataValues None u) "id" = VNum (id u).
Proof. by destruct u. Qed.

(** The public columns of a row. *)
Lemma dataValues_attributes (u : UserRow) :
  dataValues (Some ["id"; "firstname"; "lastname"; "email"]) u
  = {[ "id" := VNum (id u); "firstname" := VStr (firstname u);
       "lastname" := VStr (lastname u); "email" := VStr (email u) ]}.
Proof. destruct u. reflexivity. Qed.

(** What is written of an instance whose password was set to [undefined]. *)
Lemma json_members_scrubbed (u : UserRow) :
  json_members (<["password" := VUndefined]> (dataValues None u))
  = {[ "id" := VNum (id u); "firstname" := VStr (firstname u);
       "lastname" := VStr (lastname u); "email" := VStr (email u);
       "createdAt" := VObject (createdAt u); "updatedAt" := VObject (updatedAt u) ]}.
Proof. destruct u. reflexivity. Qed.

(** Unfolds a handler down to the calls it makes. *)
Local Ltac run :=
  unfold createUser, authenticateUser, findUserByEmail, catch_next,
    createUser_try, authenticateUser_try, findUserByEmail_try,
    getUserByEmail, validateEmail, User_findOne,
    mbind, M_bind, mret, M_ret, sync, throw in *.

(** *** Authentication *)

(** Credentials with a truthy email pass [validateUser] when the password is
    truthy too. *)
Lemma validateUser_credentials (credentials : obj) :
  truthy (prop credentials "email") = true →
  truthy (prop credentials "password") = true →
  validateUser (Some credentials) ["email"; "password"] = inr tt.
Proof.
  intros Hemail Hpassword. apply validateUser_pass; [|done|].
  - by apply (truthy_own credentials "email").
  - intros g Hg.
    repeat (apply elem_of_cons in Hg as [->|Hg]); [done..|]. by apply elem_of_nil in Hg.
Qed.

(** What [authenticateUser] answers once the lookup has found a row: the
    verdict of [bcrypt.compare] decides. *)
Lemma authenticateUser_found (credentials : obj) (db : Database) (u : UserRow) :
  truthy (prop credentials "email") = true →
  truthy (prop credentials "password") = true →
  row_with_email (prop credentials "email") db = Some u →
  (authenticateUser (Some credentials) db).2
  = match bcrypt_compare (prop credentials "password") (VStr (password u)) with
    | inr true =>
        success {| status := 200;
                   body := Json (<["password" := VUndefined]> (dataValues None u)) |}
    | inr false => errorHandler (createError (Some 401%Z) (Some "Invalid credentials"))
    | inl error => errorHandler error
    end.
Proof.
  intros Hemail Hpassword Hfound.
  run. rewrite (validateUser_credentials _ Hemail Hpassword). simpl.
  rewrite Hfound. cbn [fmap option_fmap option_map]. rewrite dataValues_password.
  by destruct (bcrypt_compare _ _) as [e|[|]].
Qed.

(** The two ways credentials are turned down end in the same answer. *)
Lemma authenticateUser_turned_down (credentials : obj) (db : Database) :
  truthy (prop credentials "email") = true →
  truthy (prop credentials "password") = true →
  row_with_email (prop credentials "email") db = None
  ∨ (∃ u, row_with_email (prop credentials "email") db = Some u
        ∧ bcrypt_compare (prop credentials "password") (VStr (password u)) = inr false) →
  (authenticateUser (Some credentials) db).2 = failure 401 "Invalid credentials".
Proof.
  intros Hemail Hpassword [Hnone|(u & Hfound & Hcompare)].
  - run. rewrite (validateUser_credentials _ Hemail Hpassword). simpl.
    rewrite Hnone. simpl. by apply errorHandler_createError.
  - rewrite (authenticateUser_found _ _ u) by done. rewrite Hcompare.
    by apply errorHandler_createError.
Qed.

(** [bcrypt.compare] rejects a password that is not a text. *)
Lemma bcrypt_compare_not_text (s : value) (h : string) :
  (∀ p, s ≠ VStr p) →
  bcrypt_compare s (VStr h)
  = inl (library_error ("Illegal arguments: " +:+ typeof s +:+ ", string")).
Proof. intros Hs. destruct s; try done. by destruct (Hs s). Qed.

(** C1 (amended): with an email and a password present, when no stored row
    has the email, or the row found for it has a hash that [bcrypt.compare]
    finds the password not to verify against, [authenticateUser] answers 401
    with the message "Invalid credentials", the same in both cases; when a
    row is found and the password is not a text, [bcrypt.compare] rejects it
    and the answer is 500 with its message "Illegal arguments: <type>,
    string". *)
Theorem authenticateUser_invalid_credentials (credentials : obj) (db : Database) :
  truthy (prop credentials "email") = true →
  truthy (prop credentials "password") = true →
  ((∀ r, r ∈ rows db → where_eq (prop credentials "email") (email r) = false)
   ∨ (∃ u, row_with_email (prop credentials "email") db = Some u
         ∧ bcrypt_compare (prop credentials "password") (VStr (password u)) = inr false) →
   (authenticateUser (Some credentials) db).2 = failure 401 "Invalid credentials")
  ∧ (∀ u, row_with_email (prop credentials "email") db = Some u →
     (∀ p, prop credentials "password" ≠ VStr p) →
     (authenticateUser (Some credentials) db).2
     = failure 500 ("Illegal arguments: " +:+ typeof (prop credentials "password")
                    +:+ ", string")).
Proof.
  intros Hemail Hpassword. split.
  - intros [Hnone|Hmismatch]; apply authenticateUser_turned_down; try done.
    + left. by apply row_with_email_None.
    + by right.
  - intros u Hfound Htext.
    rewrite (authenticateUser_found _ _ u) by done.
    rewrite bcrypt_compare_not_text by done.
    unfold errorHandler, failure, library_error, or_code. simpl.
    by destruct (prop credentials "password").
Qed.

(** C2: whenever [authenticateUser] succeeds, it answers 200 with the row
    found for the email, its password set to [undefined]: the JSON written
    has no password member and has every other column of the row as stored,
    the id, firstname, lastname, email and the two time stamps. *)
Theorem authenticateUser_scrubs_password (req : option obj) (db db' : Database)
    (res : Response) :
  authenticateUser_try req db = (db', inr res) →
  authenticateUser req db = (db', success res)
  ∧ status res = 200%Z
  ∧ ∃ credentials u sent,
      req = Some credentials
      ∧ row_with_email (prop credentials "email") db = Some u
      ∧ body res = Json sent
      ∧ sent !! "password" = Some VUndefined
      ∧ json_members sent !! "password" = None
      ∧ json_members sent
        = {[ "id" := VNum (id u); "firstname" := VStr (firstname u);
             "lastname" := VStr (lastname u); "email" := VStr (email u);
             "createdAt" := VObject (createdAt u);
             "updatedAt" := VObject (updatedAt u) ]}.
Proof.
  intros Hrun. split.
  { unfold authenticateUser, catch_next. by rewrite Hrun. }
  run.
  destruct (validateUser req ["email"; "password"]) as [e|[]] eqn:Hv; [done|].
  destruct req as [credentials|]; [|done]. simpl in Hrun.
  destruct (row_with_email (prop credentials "email") db) as [u|] eqn:Hfound; [|done].
  cbn [fmap option_fmap option_map] in Hrun.
  destruct (bcrypt_compare _ _) as [e|[|]]; simpl in Hrun; [done| |done].
  injection Hrun as <- <-. split; [done|].
  exists credentials, u, (<["password" := VUndefined]> (dataValues None u)).
  rewrite json_members_scrubbed.
  repeat split; done.
Qed.

(** *** Lookup by email *)

(** C6: [findUserByEmail] answers 400 when the email is absent; 400 with the
    message "Could not find a user with the given email" when an email is
    given and no row has it; and otherwise 200 with exactly the id,
    firstname, lastname and email of the row found, and no password. *)
Theorem findUserByEmail_cases (query : obj) (db : Database) :
  (query !! "email" = None →
     (findUserByEmail query db).2 = failure 400 "Invalid email")
  ∧ (truthy (prop query "email") = true →
     (∀ r, r ∈ rows db → where_eq (prop query "email") (email r) = false) →
     (findUserByEmail query db).2
     = failure 400 "Could not find a user with the given email")
  ∧ (∀ u, truthy (prop query "email") = true →
     row_with_email (prop query "email") db = Some u →
     ∃ sent,
       (findUserByEmail query db).2 = success {| status := 200; body := Json sent |}
       ∧ sent = {[ "id" := VNum (id u); "firstname" := VStr (firstname u);
                   "lastname" := VStr (lastname u); "email" := VStr (email u) ]}
       ∧ dom sent = {[ "id"; "firstname"; "lastname"; "email" ]}
       ∧ sent !! "password" = None
       ∧ json_members sent = sent).
Proof.
  split; [|split].
  - intros Habsent. run. rewrite (prop_absent _ _ Habsent) by done. simpl.
    by apply errorHandler_createError.
  - intros Hemail Hnone. run. rewrite Hemail. simpl.
    apply row_with_email_None in Hnone. rewrite Hnone. simpl.
    by apply errorHandler_createError.
  - intros u Hemail Hfound. run. rewrite Hemail. simpl.
    rewrite Hfound. cbn [fmap option_fmap option_map]. rewrite dataValues_attributes.
    eexists. split; [reflexivity|]. split; [reflexivity|].
    destruct u. repeat split; reflexivity.
Qed.

(** C10: an empty-string email is treated as an absent one. Whenever the
    email of the query is falsy, [findUserByEmail] answers 400 with the
    message "Invalid email" and leaves the database as it was, its list of
    statements included: no query is made. *)
Theorem findUserByEmail_falsy_email (query : obj) (db : Database) :
  (truthy (prop query "email") = false →
     findUserByEmail query db = (db, failure 400 "Invalid email"))
  ∧ (query !! "email" = Some (VStr "") ∨ query !! "email" = None →
     findUserByEmail query db = (db, failure 400 "Invalid email")
     ∧ statements (findUserByEmail query db).1 = statements db).
Proof.
  assert (Hfalsy : truthy (prop query "email") = false →
                   findUserByEmail query db = (db, failure 400 "Invalid email")).
  { intros Hemail. run. by rewrite Hemail. }
  split; [done|].
  intros Hcase.
  assert (Hemail : truthy (prop query "email") = false).
  { destruct Hcase as [Hk|Hk]; [by rewrite (prop_lookup _ _ _ Hk)
                               | by rewrite (prop_absent _ _ Hk)]. }
  by rewrite (Hfalsy Hemail).
Qed.

(** *** Registration *)

Lemma pretty_N_go_length (x : N) (s : string) :
  (String.length s ≤ String.length (pretty_N_go x s))%nat.
Proof.
  revert s. induction (N.lt_wf_0 x) as [x _ IH]; intros s.
  assert (x = 0 ∨ 0 < x)%N as [->|Hx] by lia; [by rewrite pretty_N_go_0|].
  rewrite pretty_N_go_step by done.
  etrans; [|apply IH; by apply N.div_lt]. simpl. lia.
Qed.

(** The digits of an integer are never the empty text. *)
Lemma pretty_Z_nonempty (z : Z) : pretty z ≠ "".
Proof.
  destruct z as [|p|p]; [done| |done].
  unfold pretty, pretty_Z, pretty, pretty_positive, pretty, pretty_N.
  destruct (decide (N.pos p = 0%N)); [done|].
  intros E. pose proof (pretty_N_go_length (N.pos p / 10)
                          (String (pretty_N_char (N.pos p `mod` 10)) "")) as Hlen.
  rewrite <- pretty_N_go_step in Hlen by done. rewrite E in Hlen. simpl in Hlen. lia.
Qed.

Lemma number_text_nonempty (n : Z) : number_text n ≠ "".
Proof.
  unfold number_text. destruct (n <? 0)%Z; [done|].
  destruct (Z.abs n <? 2 ^ 53)%Z; [apply pretty_Z_nonempty|].
  destruct (Z.abs n <? 10 ^ 21)%Z; [apply pretty_Z_nonempty|].
  unfold exponent_form.
  destruct (written _) as [|d rest] eqn:E; [|done].
  by apply pretty_Z_nonempty in E.
Qed.

(** Below 2^53 the text of an integer is its digits. *)
Lemma number_text_small (n : Z) :
  (Z.abs n < 2 ^ 53)%Z → number_text n = pretty n.
Proof.
  intros Hn. unfold number_text. apply Z.ltb_lt in Hn. rewrite Hn.
  by destruct n.
Qed.

(** A truthy value is kept as a text that is not empty. *)
Lemma column_text_truthy (v : value) (s : string) :
  truthy v = true → column_text v = inr s → s ≠ "".
Proof.
  destruct v as [| |b|n|t| |]; simpl; try done.
  - apply (engine_text_truthy (VBool b)).
  - apply (engine_text_truthy (VNum n)).
  - intros Ht [= <-] ->. discriminate.
Qed.

(** A key that [primary_key] grants fits the column and is unused. *)
Lemma primary_key_inr (v : value) (db : Database) (k : Z) :
  primary_key v db = inr k →
  (-2147483648 ≤ k ≤ 2147483647)%Z ∧ ∀ r, r ∈ rows db → id r ≠ k.
Proof.
  unfold primary_key. destruct (requested_key v) as [e|asked]; [done|].
  destruct (negb _) eqn:Hrange; [done|].
  destruct (existsb _ _) eqn:Hused; [done|]. intros [= <-].
  apply negb_false_iff, andb_true_iff in Hrange as [Hlo Hhi].
  apply Z.leb_le in Hlo, Hhi. split; [done|].
  intros r Hr Heq.
  assert (existsb (λ r0, (id r0 =? default (auto_increment db) asked)%Z) (rows db) = true)
    as Hyes; [|by rewrite Hyes in Hused].
  apply existsb_exists. exists r. split; [by apply list_elem_of_In | by apply Z.eqb_eq].
Qed.

(** A successful [User.create] appends exactly one row: the texts kept for
    the values given, the time stamps, and a fresh key, which the instance
    reports. *)
Lemma User_create_inr (values saved : obj) (stamps : Stamps) (db db' : Database) :
  User_create values stamps db = (db', inr saved) →
  ∃ r, rows db' = rows db ++ [r]
    ∧ statements db' = statements db ++ [Insert r]
    ∧ prop saved "id" = VNum (id r)
    ∧ column_text (prop values "firstname") = inr (firstname r)
    ∧ column_text (prop values "lastname") = inr (lastname r)
    ∧ prop values "email" = VStr (email r)
    ∧ column_text (prop values "password") = inr (password r)
    ∧ isEmail (email r) = true
    ∧ createdAt r = created stamps ∧ updatedAt r = updated stamps
    ∧ (-2147483648 ≤ id r ≤ 2147483647)%Z
    ∧ ∀ r', r' ∈ rows db → id r' ≠ id r.
Proof.
  unfold User_create. intros Hrun.
  destruct (column_text (prop values "firstname")) as [e1|f]; [by repeat case_match|].
  destruct (column_text (prop values "lastname")) as [e2|l]; [by repeat case_match|].
  destruct (prop values "email") as [| | | |e| |];
    try (by repeat case_match).
  destruct (column_text (prop values "password")) as [e3|p]; [done|].
  destruct (isEmail e) eqn:He; [|done].
  destruct (primary_key (prop values "id") db) as [error|k] eqn:Hkey; [done|].
  injection Hrun as <- <-. apply primary_key_inr in Hkey as [Hrange Hfresh].
  eexists. split; [reflexivity|]. split; [reflexivity|].
  split; [apply prop_insert_eq|]. simpl.
  do 7 (split; [done|]). by split.
Qed.

(** A refused [User.create] leaves the database as it was. *)
Lemma User_create_inl (values : obj) (stamps : Stamps) (db db' : Database) (error : Error) :
  User_create values stamps db = (db', inl error) → db' = db.
Proof.
  unfold User_create. intros Hrun.
  repeat case_match; by simplify_eq.
Qed.

(** What a successful run of the [try] block of [createUser] went through. *)
Lemma createUser_try_inr (req : option obj) (salt : string) (stamps : Stamps) (db db' : Database)
    (res : Response) :
  createUser_try req salt stamps db = (db', inr res) →
  ∃ user h saved,
    req = Some user
    ∧ validateUser req ["firstname"; "lastname"; "email"; "password"] = inr tt
    ∧ row_with_email (prop user "email") db = None
    ∧ bcrypt_hash (prop user "password") 12 salt = inr h
    ∧ User_create (<["password" := VStr h]> user) stamps (looked_up (prop user "email") db)
      = (db', inr saved)
    ∧ res = {| status := 201; body := Text (template (prop saved "id")) |}.
Proof.
  intros Hrun. run.
  destruct (validateUser req _) as [e|[]] eqn:Hv; [done|].
  destruct req as [user|]; [|done]. simpl in Hrun.
  destruct (truthy (prop user "email")); simpl in Hrun; [|done].
  destruct (row_with_email (prop user "email") db) as [u|] eqn:Hfound; [done|].
  cbn [fmap option_fmap option_map] in Hrun.
  destruct (bcrypt_hash (prop user "password") 12 salt) as [e|h] eqn:Hhash; [done|].
  destruct (User_create _ _ _) as [db1 [e|saved]] eqn:Hcreate; [done|].
  injection Hrun as <- <-. by exists user, h, saved.
Qed.

(** Setting the password leaves the other properties as they were. *)
Lemma prop_set_password (user : obj) (h : value) (k : string) :
  k ≠ "password" → prop (<["password" := h]> user) k = prop user k.
Proof. intros Hk. by apply prop_insert_ne. Qed.

Lemma prop_set_password_eq (user : obj) (h : value) :
  prop (<["password" := h]> user) "password" = h.
Proof. apply prop_insert_eq. Qed.

(** The key of an [INTEGER] column as a template literal prints it. *)
Lemma template_key (k : Z) :
  (-2147483648 ≤ k ≤ 2147483647)%Z → template (VNum k) = pretty k.
Proof. intros Hk. apply number_text_small. lia. Qed.

(** A successful registration, in full: the row appended and the answer. *)
Lemma createUser_try_row (req : option obj) (salt : string) (stamps : Stamps) (db db' : Database)
    (res : Response) :
  createUser_try req salt stamps db = (db', inr res) →
  ∃ user r,
    req = Some user
    ∧ row_with_email (prop user "email") db = None
    ∧ rows db' = rows db ++ [r]
    ∧ column_text (prop user "firstname") = inr (firstname r)
    ∧ column_text (prop user "lastname") = inr (lastname r)
    ∧ prop user "email" = VStr (email r)
    ∧ bcrypt_hash (prop user "password") 12 salt = inr (password r)
    ∧ firstname r ≠ "" ∧ lastname r ≠ "" ∧ email r ≠ ""
    ∧ isEmail (email r) = true
    ∧ createdAt r = created stamps ∧ updatedAt r = updated stamps
    ∧ res = {| status := 201; body := Text (pretty (id r)) |}.
Proof.
  intros Hrun.
  apply createUser_try_inr in Hrun
    as (user & h & saved & -> & Hv & Hnone & Hhash & Hcreate & ->).
  apply validateUser_inr in Hv as (user' & [= <-] & Hfields).
  apply User_create_inr in Hcreate
    as (r & Hrows & _ & -> & Hf & Hl & He & Hp & Hmail & Hc & Hu & Hrange & _).
  rewrite prop_set_password in Hf, Hl, He by done.
  rewrite prop_set_password_eq in Hp. injection Hp as ->.
  destruct validationRules_labels as (Rf & Rl & Re & _).
  assert (Tf : truthy (prop user "firstname") = true)
    by (apply Hfields; [repeat constructor | by rewrite Rf]).
  assert (Tl : truthy (prop user "lastname") = true)
    by (apply Hfields; [repeat constructor | by rewrite Rl]).
  assert (Te : truthy (prop user "email") = true)
    by (apply Hfields; [repeat constructor | by rewrite Re]).
  exists user, r. rewrite template_key by done.
  repeat split; try done.
  - by apply (column_text_truthy _ _ Tf).
  - by apply (column_text_truthy _ _ Tl).
  - apply (column_text_truthy (prop user "email")); [done|]. by rewrite He.
Qed.

(** C4: whenever [createUser] succeeds, exactly one row has been appended to
    the table; its password column holds the hash [bcrypt.hash] computed,
    with cost factor 12, from the password of the body, and not that
    password; and the answer is 201 with the id of that row as text. *)
Theorem createUser_inserts_hashed (req : option obj) (salt : string) (stamps : Stamps)
    (db db' : Database) (res : Response) :
  createUser_try req salt stamps db = (db', inr res) →
  createUser req salt stamps db = (db', success res)
  ∧ ∃ user h r,
      req = Some user
      ∧ bcrypt_hash (prop user "password") 12 salt = inr h
      ∧ rows db' = rows db ++ [r]
      ∧ password r = h
      ∧ res = {| status := 201; body := Text (pretty (id r)) |}.
Proof.
  intros Hrun. split.
  { unfold createUser, catch_next. by rewrite Hrun. }
  apply createUser_try_row in Hrun
    as (user & r & -> & _ & Hrows & _ & _ & _ & Hh & _ & _ & _ & _ & _ & _ & ->).
  by exists user, (password r), r.
Qed.

(** C9: whenever [createUser] fails, whatever the error, the table holds the
    rows it held before and its auto-increment counter has not moved: no row
    is inserted on a failing path. *)
Theorem createUser_failure_inserts_nothing (req : option obj) (salt : string) (stamps : Stamps)
    (db db' : Database) (error : Error) :
  createUser_try req salt stamps db = (db', inl error) →
  createUser req salt stamps db = (db', errorHandler error)
  ∧ rows db' = rows db
  ∧ auto_increment db' = auto_increment db
  ∧ (statements db' = statements db
     ∨ ∃ user, req = Some user
         ∧ statements db' = statements db ++ [Select (prop user "email")]).
Proof.
  intros Hrun. split.
  { unfold createUser, catch_next. by rewrite Hrun. }
  run.
  destruct (validateUser req _) as [e|[]] eqn:Hv; [simplify_eq; auto|].
  destruct req as [user|]; [|simplify_eq; auto]. simpl in Hrun.
  destruct (truthy (prop user "email")); simpl in Hrun; [|simplify_eq; auto].
  fold (looked_up (prop user "email") db) in Hrun.
  assert (Hafter : rows (looked_up (prop user "email") db) = rows db
            ∧ auto_increment (looked_up (prop user "email") db) = auto_increment db
            ∧ (statements (looked_up (prop user "email") db) = statements db
               ∨ ∃ u, Some user = Some u
                   ∧ statements (looked_up (prop user "email") db)
                     = statements db ++ [Select (prop u "email")])).
  { repeat split. right. by exists user. }
  destruct (row_with_email (prop user "email") db) as [u|];
    cbn [fmap option_fmap option_map] in Hrun; [simplify_eq; auto|].
  destruct (bcrypt_hash (prop user "password") 12 salt) as [e|h]; [simplify_eq; auto|].
  destruct (User_create _ _ _) as [db1 [e|saved]] eqn:Hcreate; [|done].
  apply User_create_inl in Hcreate as ->. simplify_eq. auto.
Qed.

(** C5: on a table that already holds a row with the email E, a registration
    body with its four fields present and the email E is answered with 409;
    in particular, after a registration has succeeded, registering the same
    body again is answered with 409. The storage engine finds a text equal to
    itself. *)
Theorem createUser_duplicate_email :
  (∀ s, where_eq (VStr s) s = true) →
  (∀ (user : obj) (E salt : string) (stamps : Stamps) (db : Database),
      (∀ g, g ∈ ["firstname"; "lastname"; "email"; "password"] →
            truthy (prop user g) = true) →
      prop user "email" = VStr E →
      (∃ r, r ∈ rows db ∧ email r = E) →
      (createUser (Some user) salt stamps db).2 = failure 409 "This email is already taken.")
  ∧ (∀ (user : obj) (salt salt' : string) (stamps stamps' : Stamps) (db db' : Database)
       (res : Response),
      createUser_try (Some user) salt stamps db = (db', inr res) →
      (createUser (Some user) salt' stamps' db').2
      = failure 409 "This email is already taken.").
Proof.
  intros Hrefl.
  assert (Hdup : ∀ (user : obj) (E salt : string) (stamps : Stamps) (db : Database),
      (∀ g, g ∈ ["firstname"; "lastname"; "email"; "password"] →
            truthy (prop user g) = true) →
      prop user "email" = VStr E →
      (∃ r, r ∈ rows db ∧ email r = E) →
      (createUser (Some user) salt stamps db).2 = failure 409 "This email is already taken.").
  { intros user E salt stamps db Hfields Hemail (r & Hr & <-).
    pose proof (Hfields "email" ltac:(repeat constructor)) as Htruthy.
    destruct (row_with_email_is_Some (VStr (email r)) db r Hr (Hrefl _)) as [u Hu].
    run. rewrite validateUser_pass;
      [|by apply (truthy_own user "email")|done|done]. simpl.
    rewrite Htruthy. simpl. rewrite Hemail, Hu. simpl.
    by apply errorHandler_createError. }
  split; [exact Hdup|].
  intros user salt salt' stamps stamps' db db' res Hrun.
  apply createUser_try_inr in Hrun
    as (user' & h & saved & [= <-] & Hv & _ & _ & Hcreate & _).
  apply validateUser_inr in Hv as (user' & [= <-] & Hfields).
  apply User_create_inr in Hcreate as (r & Hrows & _ & _ & _ & _ & He & _).
  rewrite prop_set_password in He by done.
  apply (Hdup user (email r) salt' stamps' db').
  - intros g Hg. apply Hfields; [done|].
    destruct validationRules_labels as (Hf & Hl & Hm & Hp).
    repeat (apply elem_of_cons in Hg as [->|Hg]);
      [by rewrite Hf | by rewrite Hl | by rewrite Hm | by rewrite Hp |].
    by apply elem_of_nil in Hg.
  - done.
  - exists r. split; [|done]. rewrite Hrows. apply elem_of_app. right. by left.
Qed.

(** *** Round trip *)

(** C3: on the table right after start-up, registering firstname "A",
    lastname "B", email "a@b.com", password "secret" is answered 201 with the
    text "1"; then authenticating with that email and "secret" is answered
    200 with the id 1, the firstname, lastname and email registered, the two
    time stamps of the row and no password, and authenticating with "wrong"
    is answered 401. The libraries are taken at their word on these inputs:
    the email is well formed and equal to itself, the password hashes, the
    hash verifies "secret" and does not verify "wrong". *)
Theorem register_then_authenticate (salt h : string) (stamps : Stamps) :
  isEmail "a@b.com" = true →
  where_eq (VStr "a@b.com") "a@b.com" = true →
  bcrypt_hash (VStr "secret") 12 salt = inr h →
  bcrypt_compare (VStr "secret") (VStr h) = inr true →
  bcrypt_compare (VStr "wrong") (VStr h) = inr false →
  ∃ db,
    createUser
      (Some {[ "firstname" := VStr "A"; "lastname" := VStr "B";
               "email" := VStr "a@b.com"; "password" := VStr "secret" ]})
      salt stamps synced
    = (db, success {| status := 201; body := Text "1" |})
    ∧ (∃ sent,
        (authenticateUser
           (Some {[ "email" := VStr "a@b.com"; "password" := VStr "secret" ]}) db).2
        = success {| status := 200; body := Json sent |}
        ∧ json_members sent
          = {[ "id" := VNum 1; "firstname" := VStr "A"; "lastname" := VStr "B";
               "email" := VStr "a@b.com";
               "createdAt" := VObject (created stamps);
               "updatedAt" := VObject (updated stamps) ]}
        ∧ json_members sent !! "password" = None)
    ∧ (authenticateUser
         (Some {[ "email" := VStr "a@b.com"; "password" := VStr "wrong" ]}) db).2
      = failure 401 "Invalid credentials".
Proof.
  intros Hmail Heq Hhash Hsecret Hwrong.
  set (user := {[ "firstname" := VStr "A"; "lastname" := VStr "B";
                  "email" := VStr "a@b.com"; "password" := VStr "secret" ]} : obj).
  set (row := {| id := 1; firstname := "A"; lastname := "B"; email := "a@b.com";
                 password := h; createdAt := created stamps;
                 updatedAt := updated stamps |}).
  set (db := {| rows := [row]; auto_increment := 2;
                statements := [Select (VStr "a@b.com"); Insert row] |}).
  assert (Hfound : row_with_email (VStr "a@b.com") db = Some row).
  { unfold row_with_email. simpl. by rewrite Heq. }
  exists db. split; [|split].
  - assert (Hv : validateUser (Some user) ["firstname"; "lastname"; "email"; "password"]
                 = inr tt) by reflexivity.
    assert (Hcreate : User_create (<["password" := VStr h]> user) stamps
                        {| rows := []; auto_increment := 1;
                           statements := [Select (VStr "a@b.com")] |}
                      = (db, inr (<["id" := VNum 1]>
                                    (<["createdAt" := VObject (created stamps)]>
                                       (<["updatedAt" := VObject (updated stamps)]>
                                          (<["password" := VStr h]> user)))))).
    { unfold User_create.
      change (prop (<["password" := VStr h]> user) "firstname") with (VStr "A").
      change (prop (<["password" := VStr h]> user) "lastname") with (VStr "B").
      change (prop (<["password" := VStr h]> user) "email") with (VStr "a@b.com").
      change (prop (<["password" := VStr h]> user) "id") with VUndefined.
      rewrite prop_set_password_eq. simpl. by rewrite Hmail. }
    run. rewrite Hv. simpl.
    change (prop user "email") with (VStr "a@b.com").
    change (prop user "password") with (VStr "secret").
    simpl. change (bcrypt_digest "secret" 12 salt) with (bcrypt_hash (VStr "secret") 12 salt).
    rewrite Hhash. change (looked_up (VStr "a@b.com") synced)
      with {| rows := []; auto_increment := 1; statements := [Select (VStr "a@b.com")] |}.
    rewrite Hcreate. by rewrite prop_insert_eq.
  - exists (<["password" := VUndefined]> (dataValues None row)).
    split; [|split].
    + rewrite (authenticateUser_found _ _ row); [|reflexivity|reflexivity|exact Hfound].
      change (prop {[ "email" := VStr "a@b.com"; "password" := VStr "secret" ]} "password")
        with (VStr "secret").
      change (password row) with h. by rewrite Hsecret.
    + by rewrite json_members_scrubbed.
    + by rewrite json_members_scrubbed.
  - apply authenticateUser_turned_down; [reflexivity..|].
    right. exists row. split; [exact Hfound | exact Hwrong].
Qed.

(** ** Further properties of the error factory and of the validators *)

(** X1: an error made by [createError] always has a code that is not 0 and a
    message that is not empty: an absent or zero code becomes 500, an absent
    or empty message becomes "Oops! something went wrong.", anything else is
    kept. The error handler therefore answers such an error with exactly its
    code and its message, and never with its own default text. *)
Theorem createError_then_errorHandler (c : option Z) (msg : option string) :
  ∃ n text,
    createError c msg = {| code := Some n; message := text |}
    ∧ n ≠ 0%Z ∧ text ≠ ""
    ∧ (∀ k, c = Some k → k ≠ 0%Z → n = k)
    ∧ (c = None ∨ c = Some 0%Z → n = 500%Z)
    ∧ (∀ m, msg = Some m → m ≠ "" → text = m)
    ∧ (msg = None ∨ msg = Some "" → text = "Oops! something went wrong.")
    ∧ errorHandler (createError c msg) = failure n text.
Proof.
  exists (or_code c 500), (or_text (default "" msg) "Oops! something went wrong.").
  assert (Hn : or_code c 500 ≠ 0%Z).
  { unfold or_code. destruct c as [k|]; [|done].
    destruct (k =? 0)%Z eqn:E; [done|]. by apply Z.eqb_neq in E. }
  assert (Ht : or_text (default "" msg) "Oops! something went wrong." ≠ "").
  { unfold or_text. destruct (String.eqb (default "" msg) "") eqn:E; [done|].
    by apply String.eqb_neq in E. }
  split; [done|]. split; [done|]. split; [done|]. split; [|split; [|split; [|split]]].
  - intros k -> Hk. unfold or_code. apply Z.eqb_neq in Hk. by rewrite Hk.
  - by intros [-> | ->].
  - intros m -> Hm. by apply or_text_nonempty.
  - by intros [-> | ->].
  - change (createError c msg)
      with {| code := Some (or_code c 500);
              message := or_text (default "" msg) "Oops! something went wrong." |}.
    revert Hn Ht.
    generalize (or_code c 500) (or_text (default "" msg) "Oops! something went wrong.").
    intros n text Hn Ht. unfold errorHandler, failure. simpl.
    rewrite (or_text_nonempty _ _ Ht). apply Z.eqb_neq in Hn. by rewrite Hn.
Qed.

(** What a passing run of the field validator went through. *)
Lemma validateFields_inr (entity rules : option obj) (fields : option (list string)) :
  validateFields entity rules fields = inr tt →
  ∃ e r fs,
    entity = Some e ∧ rules = Some r ∧ fields = Some fs
    ∧ e ≠ ∅ ∧ r ≠ ∅ ∧ fs ≠ []
    ∧ ∀ g, g ∈ fs → truthy (prop r g) = true → truthy (prop e g) = true.
Proof.
  unfold validateFields. intros Hrun.
  destruct entity as [e|]; [|done].
  destruct (no_keys e) eqn:He; [done|].
  destruct rules as [r|]; [|done].
  destruct (no_keys r) eqn:Hr; [done|].
  destruct fields as [[|f fs]|]; [done| |done].
  apply bool_decide_eq_false in He, Hr.
  exists e, r, (f :: fs). repeat split; try done.
  by apply forEach_field_inr.
Qed.

(** X2: [validateFields] passes exactly when the entity, the rules and the
    list of fields are all there and not empty, and every listed field whose
    rule is truthy has a truthy value in the entity. *)
Theorem validateFields_passes_iff (entity rules : option obj)
    (fields : option (list string)) :
  validateFields entity rules fields = inr tt
  ↔ ∃ e r fs,
      entity = Some e ∧ rules = Some r ∧ fields = Some fs
      ∧ e ≠ ∅ ∧ r ≠ ∅ ∧ fs ≠ []
      ∧ ∀ g, g ∈ fs → truthy (prop r g) = true → truthy (prop e g) = true.
Proof.
  split; [apply validateFields_inr|].
  intros (e & r & fs & -> & -> & -> & He & Hr & Hfs & Hall).
  rewrite validateFields_loop by done. by apply forEach_field_pass.
Qed.

(** A failing loop fails with 400 and a message that names a rule. *)
Lemma forEach_field_inl (entity rules : obj) (fields : list string) (error : Error) :
  forEach_field entity rules fields = inl error →
  ∃ g, g ∈ fields ∧ truthy (prop rules g) = true ∧ truthy (prop entity g) = false
    ∧ error = {| code := Some 400%Z;
                 message := template (prop rules g) +:+ " cannot be undefined" |}.
Proof.
  induction fields as [|f fields IH]; [done|]. simpl.
  destruct (truthy (prop rules f)) eqn:Hr; simpl.
  - destruct (truthy (prop entity f)) eqn:He; simpl.
    + intros Hrun. destruct (IH Hrun) as (g & Hg & ?). exists g. split; [by right | done].
    + intros [= <-]. exists f. split; [by left|]. repeat split; try done.
      apply createError_given; [done | apply cannot_be_undefined_nonempty].
  - intros Hrun. destruct (IH Hrun) as (g & Hg & ?). exists g. split; [by right | done].
Qed.

(** Every error of the field validator has the code 400 and a message. *)
Lemma validateFields_inl (entity rules : option obj) (fields : option (list string))
    (error : Error) :
  validateFields entity rules fields = inl error →
  code error = Some 400%Z ∧ message error ≠ "".
Proof.
  assert (Hliteral : ∀ text, text ≠ "" →
            createError (Some 400%Z) (Some text) = error →
            code error = Some 400%Z ∧ message error ≠ "").
  { intros text Htext <-. by rewrite createError_given. }
  unfold validateFields. intros Hrun.
  destruct entity as [e|]; [|(injection Hrun as Hrun; eapply Hliteral; [|exact Hrun]; done)].
  destruct (no_keys e); [(injection Hrun as Hrun; eapply Hliteral; [|exact Hrun]; done)|].
  destruct rules as [r|]; [|(injection Hrun as Hrun; eapply Hliteral; [|exact Hrun]; done)].
  destruct (no_keys r); [(injection Hrun as Hrun; eapply Hliteral; [|exact Hrun]; done)|].
  destruct fields as [[|f fs]|]; [(injection Hrun as Hrun; eapply Hliteral; [|exact Hrun]; done)|
                                 |(injection Hrun as Hrun; eapply Hliteral; [|exact Hrun]; done)].
  apply forEach_field_inl in Hrun as (g & _ & _ & _ & ->).
  split; [done | apply cannot_be_undefined_nonempty].
Qed.

(** X3: whatever its arguments, an error thrown by [validateFields] has the
    code 400 and a message that is not empty; when the three arguments are
    there and not empty, the message is "<label> cannot be undefined" for a
    listed field with that label and a falsy value. *)
Theorem validateFields_fails_with_400 (entity rules : option obj)
    (fields : option (list string)) (error : Error) :
  validateFields entity rules fields = inl error →
  code error = Some 400%Z ∧ message error ≠ ""
  ∧ (∀ e r fs, entity = Some e → rules = Some r → fields = Some fs →
       e ≠ ∅ → r ≠ ∅ → fs ≠ [] →
       ∃ g, g ∈ fs ∧ truthy (prop r g) = true ∧ truthy (prop e g) = false
         ∧ message error = template (prop r g) +:+ " cannot be undefined").
Proof.
  intros Hrun. destruct (validateFields_inl _ _ _ _ Hrun) as [Hcode Hmsg].
  split; [done|]. split; [done|].
  intros e r fs -> -> -> He Hr Hfs.
  rewrite validateFields_loop in Hrun by done.
  apply forEach_field_inl in Hrun as (g & Hg & Hrule & Hvalue & ->).
  by exists g.
Qed.

(** The loop only looks at the truthiness of the listed fields. *)
Lemma forEach_field_agree (e1 e2 rules : obj) (fields : list string) :
  (∀ g, g ∈ fields → truthy (prop e1 g) = truthy (prop e2 g)) →
  forEach_field e1 rules fields = forEach_field e2 rules fields.
Proof.
  induction fields as [|f fields IH]; intros Hagree; [done|]. simpl.
  rewrite (Hagree f) by left. rewrite IH; [done|].
  intros g Hg. apply Hagree. by right.
Qed.

(** X4: [validateFields] looks at nothing but the listed fields, and at them
    only for truthiness: two entities that are not empty and agree on the
    truthiness of every listed field get the same verdict, whatever else
    they hold. *)
Theorem validateFields_only_listed_fields (e1 e2 : obj) (rules : option obj)
    (fields : option (list string)) :
  e1 ≠ ∅ → e2 ≠ ∅ →
  (∀ fs g, fields = Some fs → g ∈ fs → truthy (prop e1 g) = truthy (prop e2 g)) →
  validateFields (Some e1) rules fields = validateFields (Some e2) rules fields.
Proof.
  intros H1 H2 Hagree. unfold validateFields.
  rewrite (no_keys_false e1 H1), (no_keys_false e2 H2).
  destruct rules as [r|]; [|done]. destruct (no_keys r); [done|].
  destruct fields as [[|f fs]|]; [done| |done].
  apply forEach_field_agree. intros g Hg. by apply (Hagree (f :: fs)).
Qed.

(** What [Object.prototype] holds is truthy. *)
Lemma Object_prototype_truthy (g : string) (v : value) :
  Object_prototype !! g = Some v → truthy v = true.
Proof.
  intros Hg.
  assert (Hdom : g ∈ dom Object_prototype) by (apply elem_of_dom; by eexists).
  unfold Object_prototype in Hdom.
  rewrite !dom_insert_L, dom_singleton_L in Hdom.
  set_unfold.
  repeat (destruct Hdom as [->|Hdom]; [vm_compute in Hg; by injection Hg as <-|]).
  subst g. vm_compute in Hg. by injection Hg as <-.
Qed.

(** The names [validationRules] answers with something truthy: its own five
    and the inherited ones. *)
Lemma validationRules_truthy (g : string) :
  truthy (prop validationRules g) = true
  ↔ g ∈ ["id"; "firstname"; "lastname"; "email"; "password"]
    ∨ is_Some (Object_prototype !! g).
Proof.
  split.
  - intros Ht. unfold prop in Ht. destruct (validationRules !! g) as [v|] eqn:Hg.
    + left. assert (Hdom : g ∈ dom validationRules) by (apply elem_of_dom; by eexists).
      unfold validationRules in Hdom.
      rewrite !dom_insert_L, dom_singleton_L in Hdom.
      set_unfold. tauto.
    + right. destruct (Object_prototype !! g); [by eexists | done].
  - intros [Hg|[v Hv]].
    + repeat (apply elem_of_cons in Hg as [->|Hg]); [done..|].
      by apply elem_of_nil in Hg.
    + unfold prop. destruct (validationRules !! g) as [w|] eqn:Hg.
      * assert (Hdom : g ∈ dom validationRules) by (apply elem_of_dom; by eexists).
        unfold validationRules in Hdom.
        rewrite !dom_insert_L, dom_singleton_L in Hdom.
        set_unfold.
        repeat (destruct Hdom as [->|Hdom]; [vm_compute in Hg; by injection Hg as <-|]).
        subst g. vm_compute in Hg. by injection Hg as <-.
      * rewrite Hv. simpl. by apply (Object_prototype_truthy g).
Qed.

(** X5: [validateUser] throws 400 "User cannot be undefined" when there is no
    body, and passes exactly when the body is an object that is not empty,
    the list of fields is not empty, and every listed field that is one of
    id, firstname, lastname, email and password, or a name every object
    inherits (toString, constructor and the like), is truthy in the body; an
    inherited name is truthy unless the body has a falsy property of its own
    under it, and other listed names are not checked. *)
Theorem validateUser_passes_iff (req : option obj) (fields : list string) :
  (req = None →
     validateUser req fields
     = inl {| code := Some 400%Z; message := "User cannot be undefined" |})
  ∧ (validateUser req fields = inr tt
     ↔ ∃ user, req = Some user ∧ user ≠ ∅ ∧ fields ≠ []
         ∧ ∀ g, g ∈ fields →
                g ∈ ["id"; "firstname"; "lastname"; "email"; "password"]
                ∨ is_Some (Object_prototype !! g) →
                truthy (prop user g) = true)
  ∧ (∀ user g, user !! g = None → is_Some (Object_prototype !! g) →
       truthy (prop user g) = true).
Proof.
  split; [by intros ->|]. split.
  - split.
    + destruct req as [user|]; [|done]. unfold validateUser. intros Hrun.
      apply validateFields_inr in Hrun
        as (e & r & fs & [= <-] & [= <-] & [= <-] & He & _ & Hfs & Hall).
      exists user. repeat split; try done.
      intros g Hg Hnamed. apply Hall; [done|]. by apply validationRules_truthy.
    + intros (user & -> & Hne & Hfs & Hall). unfold validateUser.
      rewrite validateFields_loop by (done || apply validationRules_nonempty).
      apply forEach_field_pass.
      intros g Hg Hrule. apply Hall; [done|]. by apply validationRules_truthy.
  - intros user g Hown [v Hv]. unfold prop. rewrite Hown, Hv. simpl.
    by apply (Object_prototype_truthy g).
Qed.

(** ** Further properties of the handlers *)

Lemma validateUser_inl (req : option obj) (fields : list string) (error : Error) :
  validateUser req fields = inl error →
  code error = Some 400%Z ∧ message error ≠ "".
Proof.
  destruct req as [user|]; unfold validateUser.
  - apply validateFields_inl.
  - by intros [= <-].
Qed.

(** The handler's answer to an error with a code and a message. *)
Lemma errorHandler_coded (error : Error) (c : Z) :
  code error = Some c → c ≠ 0%Z → message error ≠ "" →
  errorHandler error = failure c (message error).
Proof.
  destruct error as [k m]. simpl. intros -> Hc Hm.
  unfold errorHandler, failure, or_code. simpl.
  rewrite (or_text_nonempty _ _ Hm). apply Z.eqb_neq in Hc. by rewrite Hc.
Qed.

(** X6: a body that does not pass [validateUser] is answered 400 with the
    validator's message by [createUser] and by [authenticateUser] before the
    database is touched: rows, counter and record of statements are as they
    were. In particular an absent body is answered "User cannot be
    undefined" and an empty object "Entity to validate cannot be undefined or
    empty". *)
Theorem validation_precedes_database (req : option obj) (salt : string) (stamps : Stamps)
    (db : Database) :
  (∀ error,
     validateUser req ["firstname"; "lastname"; "email"; "password"] = inl error →
     createUser req salt stamps db = (db, failure 400 (message error)))
  ∧ (∀ error,
     validateUser req ["email"; "password"] = inl error →
     authenticateUser req db = (db, failure 400 (message error)))
  ∧ (req = None →
     createUser req salt stamps db = (db, failure 400 "User cannot be undefined")
     ∧ authenticateUser req db = (db, failure 400 "User cannot be undefined"))
  ∧ (req = Some ∅ →
     createUser req salt stamps db
     = (db, failure 400 "Entity to validate cannot be undefined or empty")
     ∧ authenticateUser req db
       = (db, failure 400 "Entity to validate cannot be undefined or empty")).
Proof.
  assert (Hcreate : ∀ error,
     validateUser req ["firstname"; "lastname"; "email"; "password"] = inl error →
     createUser req salt stamps db = (db, failure 400 (message error))).
  { intros error Hv. destruct (validateUser_inl _ _ _ Hv) as [Hcode Hmsg].
    run. rewrite Hv. f_equal. by apply errorHandler_coded. }
  assert (Hauth : ∀ error,
     validateUser req ["email"; "password"] = inl error →
     authenticateUser req db = (db, failure 400 (message error))).
  { intros error Hv. destruct (validateUser_inl _ _ _ Hv) as [Hcode Hmsg].
    run. rewrite Hv. f_equal. by apply errorHandler_coded. }
  split; [done|]. split; [done|]. split.
  - intros ->.
    split; [apply (Hcreate {| code := Some 400%Z; message := "User cannot be undefined" |})
           |apply (Hauth {| code := Some 400%Z; message := "User cannot be undefined" |})];
      reflexivity.
  - intros ->.
    split; [apply (Hcreate {| code := Some 400%Z;
                              message := "Entity to validate cannot be undefined or empty" |})
           |apply (Hauth {| code := Some 400%Z;
                            message := "Entity to validate cannot be undefined or empty" |})];
      reflexivity.
Qed.

(** Where a run of [authenticateUser] leaves the database. *)
Lemma authenticateUser_try_db (req : option obj) (db db' : Database)
    (r : Error + Response) :
  authenticateUser_try req db = (db', r) →
  db' = db ∨ ∃ v, db' = looked_up v db.
Proof.
  run. intros Hrun.
  destruct (validateUser req _) as [e|[]]; [left; by simplify_eq|].
  destruct req as [credentials|]; [|left; by simplify_eq]. simpl in Hrun.
  right. exists (prop credentials "email").
  destruct (row_with_email _ _) as [u|];
    cbn [fmap option_fmap option_map] in Hrun; [|by simplify_eq].
  destruct (bcrypt_compare _ _) as [e|[|]]; simpl in Hrun; by simplify_eq.
Qed.

Lemma findUserByEmail_try_db (query : obj) (db db' : Database) (r : Error + Response) :
  findUserByEmail_try query db = (db', r) →
  db' = db ∨ ∃ v, db' = looked_up v db.
Proof.
  run. intros Hrun.
  destruct (truthy (prop query "email")); simpl in Hrun; [|left; by simplify_eq].
  right. exists (prop query "email").
  destruct (row_with_email _ _) as [u|];
    cbn [fmap option_fmap option_map] in Hrun; by simplify_eq.
Qed.

Lemma catch_next_db (m : M Response) (db : Database) :
  (catch_next m db).1 = (m db).1.
Proof. unfold catch_next. by destruct (m db) as [db' [e|res]]. Qed.

(** X7: [authenticateUser] and [findUserByEmail] only read: whatever the
    request and its outcome, the rows and the auto-increment counter are as
    before, and at most one query by email has been added to the record of
    statements. *)
Theorem lookups_only_read (db : Database) :
  (∀ req,
     let db' := (authenticateUser req db).1 in
     rows db' = rows db ∧ auto_increment db' = auto_increment db
     ∧ (statements db' = statements db ∨ ∃ v, statements db' = statements db ++ [Select v]))
  ∧ (∀ query,
     let db' := (findUserByEmail query db).1 in
     rows db' = rows db ∧ auto_increment db' = auto_increment db
     ∧ (statements db' = statements db ∨ ∃ v, statements db' = statements db ++ [Select v])).
Proof.
  split.
  - intros req db'. subst db'. unfold authenticateUser. rewrite catch_next_db.
    destruct (authenticateUser_try req db) as [db' r] eqn:Hrun.
    apply authenticateUser_try_db in Hrun as [->|[v ->]]; simpl; eauto.
  - intros query db'. subst db'. unfold findUserByEmail. rewrite catch_next_db.
    destruct (findUserByEmail_try query db) as [db' r] eqn:Hrun.
    apply findUserByEmail_try_db in Hrun as [->|[v ->]]; simpl; eauto.
Qed.

Lemma authenticateUser_keeps_rows (req : option obj) (db : Database) :
  rows (authenticateUser req db).1 = rows db.
Proof.
  unfold authenticateUser. rewrite catch_next_db.
  destruct (authenticateUser_try req db) as [db' r] eqn:Hrun.
  by apply authenticateUser_try_db in Hrun as [->|[v ->]].
Qed.

Lemma findUserByEmail_keeps_rows (query : obj) (db : Database) :
  rows (findUserByEmail query db).1 = rows db.
Proof.
  unfold findUserByEmail. rewrite catch_next_db.
  destruct (findUserByEmail_try query db) as [db' r] eqn:Hrun.
  by apply findUserByEmail_try_db in Hrun as [->|[v ->]].
Qed.

(** A failed registration leaves the rows as they were. *)
Lemma createUser_try_inl_rows (req : option obj) (salt : string) (stamps : Stamps)
    (db db' : Database) (error : Error) :
  createUser_try req salt stamps db = (db', inl error) → rows db' = rows db.
Proof.
  run. intros Hrun.
  destruct (validateUser req _) as [e|[]]; [by simplify_eq|].
  destruct req as [user|]; [|by simplify_eq]. simpl in Hrun.
  destruct (truthy (prop user "email")); simpl in Hrun; [|by simplify_eq].
  destruct (row_with_email _ _) as [u|];
    cbn [fmap option_fmap option_map] in Hrun; [by simplify_eq|].
  destruct (bcrypt_hash _ _ _) as [e|h]; [by simplify_eq|].
  destruct (User_create _ _ _) as [db1 [e|saved]] eqn:Hcreate; [|done].
  apply User_create_inl in Hcreate as ->. by simplify_eq.
Qed.

(** The row of a successful registration is the row of a registration whose
    firstname and lastname are the texts the table keeps. *)
Lemma createUser_try_registered (req : option obj) (salt : string) (stamps : Stamps)
    (db db' : Database) (res : Response) :
  createUser_try req salt stamps db = (db', inr res) →
  ∃ user r,
    rows db' = rows db ++ [r]
    ∧ row_with_email (VStr (email r)) db = None
    ∧ registered_by user salt r.
Proof.
  intros Hrun.
  apply createUser_try_row in Hrun
    as (user & r & -> & Hnone & Hrows & Hf & Hl & He & Hh & Nf & Nl & Ne & Hmail & _).
  exists (<["firstname" := VStr (firstname r)]> (<["lastname" := VStr (lastname r)]> user)), r.
  split; [done|]. split; [by rewrite <- He|].
  unfold registered_by.
  rewrite prop_insert_eq.
  rewrite !(prop_insert_ne _ "lastname") by done. rewrite prop_insert_eq.
  rewrite !(prop_insert_ne _ "email"), !(prop_insert_ne _ "password") by done.
  by repeat split.
Qed.

(** One request either leaves the rows as they were or appends the row of a
    registration whose email no row had. *)
Lemma router_rows (request : Request) (db : Database) :
  rows (router request db).1 = rows db
  ∨ ∃ user salt r,
      rows (router request db).1 = rows db ++ [r]
      ∧ row_with_email (VStr (email r)) db = None
      ∧ registered_by user salt r.
Proof.
  destruct request as [req salt stamps|req|query]; simpl.
  - unfold createUser. rewrite catch_next_db.
    destruct (createUser_try req salt stamps db) as [db' [e|res]] eqn:Hrun; simpl.
    + left. by eapply createUser_try_inl_rows.
    + right. apply createUser_try_registered in Hrun as (user & r & Hrows & Hnone & Hreg).
      by exists user, salt, r.
  - left. apply (authenticateUser_keeps_rows req db).
  - left. apply (findUserByEmail_keeps_rows query db).
Qed.

(** ** Properties of sequences of requests *)

Lemma serve_cons_db (request : Request) (rest : list Request) (db : Database) :
  (serve (request :: rest) db).1 = (serve rest (router request db).1).1.
Proof.
  simpl. destruct (router request db) as [db1 out]. simpl.
  by destruct (serve rest db1) as [db2 outs].
Qed.

(** A property of the rows that every request keeps holds after any number of
    requests. *)
Lemma serve_keeps (P : list UserRow → Prop) :
  (∀ request db, P (rows db) → P (rows (router request db).1)) →
  ∀ requests db, P (rows db) → P (rows (serve requests db).1).
Proof.
  intros Hstep requests. induction requests as [|request rest IH]; intros db HP; [done|].
  rewrite serve_cons_db. apply IH. by apply Hstep.
Qed.

Lemma find_app_Some {A : Type} (f : A → bool) (l l' : list A) (x : A) :
  List.find f l = Some x → List.find f (l ++ l') = Some x.
Proof.
  induction l as [|a l IH]; [done|]. simpl. destruct (f a); [done | apply IH].
Qed.

Lemma find_app_None {A : Type} (f : A → bool) (l l' : list A) :
  List.find f l = None → List.find f (l ++ l') = List.find f l'.
Proof.
  induction l as [|a l IH]; [done|]. simpl. destruct (f a); [done | apply IH].
Qed.

(** X8: the table only grows. Whatever requests are served, the rows held
    before are still there, unchanged and in the same order, followed by at
    most one new row per request: no request updates or deletes a row. *)
Theorem serve_only_appends (requests : list Request) (db : Database) :
  ∃ added,
    rows (serve requests db).1 = rows db ++ added
    ∧ (length added ≤ length requests)%nat.
Proof.
  revert db. induction requests as [|request rest IH]; intros db.
  - exists []. by rewrite app_nil_r.
  - rewrite serve_cons_db.
    destruct (IH (router request db).1) as (added & Hrows & Hlen).
    destruct (router_rows request db) as [Hsame|(user & salt & r & Hrow & _)].
    + exists added. rewrite Hrows, Hsame. split; [done | simpl; lia].
    + exists (r :: added). rewrite Hrows, Hrow, <- app_assoc.
      split; [done | simpl; lia].
Qed.

(** X9: a lookup by email is stable. Once a query value finds a row, it finds
    that same row after any further requests: later registrations neither
    change it nor come before it. *)
Theorem row_with_email_stable (v : value) (u : UserRow) (requests : list Request)
    (db : Database) :
  row_with_email v db = Some u →
  row_with_email v (serve requests db).1 = Some u.
Proof.
  unfold row_with_email.
  apply (serve_keeps (λ l, List.find (λ r, where_eq v (email r)) l = Some u)).
  clear db. intros request db Hfound.
  destruct (router_rows request db) as [->|(user & salt & r & -> & _)]; [done|].
  by apply find_app_Some.
Qed.

(** X10: sequential registrations keep emails unique. When the storage
    engine finds a text equal to itself and no two rows share an email, no
    two rows share an email after any requests served one after the other. *)
Theorem serve_keeps_emails_unique (requests : list Request) (db : Database) :
  (∀ s, where_eq (VStr s) s = true) →
  NoDup (email <$> rows db) →
  NoDup (email <$> rows (serve requests db).1).
Proof.
  intros Hrefl. apply (serve_keeps (λ l, NoDup (email <$> l))).
  clear db. intros request db Hnodup.
  destruct (router_rows request db) as [->|(user & salt & r & -> & Hnone & _)]; [done|].
  rewrite fmap_app. apply NoDup_app. split; [done|]. split; [|apply NoDup_singleton].
  intros e He Hr. apply list_elem_of_singleton in Hr as ->.
  apply list_elem_of_fmap in He as (r' & Heq & Hr').
  pose proof (proj1 (row_with_email_None _ _) Hnone r' Hr') as Hfalse.
  rewrite <- Heq, Hrefl in Hfalse. discriminate.
Qed.

(** X11: every stored row was registered. If every row of the table holds
    texts that are not empty in firstname, lastname and email, an email the
    validator accepts and, as its password, a hash made by [bcrypt.hash] with
    cost factor 12, then so does every row after any requests; in particular
    every row of a table that started empty does. *)
Theorem serve_keeps_rows_registered (requests : list Request) (db : Database) :
  (Forall (λ r, ∃ user salt, registered_by user salt r) (rows db) →
   Forall (λ r, ∃ user salt, registered_by user salt r) (rows (serve requests db).1))
  ∧ Forall (λ r, ∃ user salt, registered_by user salt r) (rows (serve requests synced).1).
Proof.
  assert (Hkeeps : ∀ db0,
    Forall (λ r, ∃ user salt, registered_by user salt r) (rows db0) →
    Forall (λ r, ∃ user salt, registered_by user salt r) (rows (serve requests db0).1)).
  { intros db0.
    apply (serve_keeps (Forall (λ r, ∃ user salt, registered_by user salt r))).
    intros request db1 Hall.
    destruct (router_rows request db1) as [->|(user & salt & r & -> & _ & Hreg)]; [done|].
    apply Forall_app. split; [done|]. apply Forall_singleton. by exists user, salt. }
  split; [apply Hkeeps|]. apply Hkeeps. simpl. constructor.
Qed.

(** ** Registration followed by a lookup *)

(** After a successful registration, the email registered finds the new row. *)
Lemma createUser_try_finds (user : obj) (salt : string) (stamps : Stamps) (db db' : Database)
    (res : Response) :
  (∀ s, where_eq (VStr s) s = true) →
  createUser_try (Some user) salt stamps db = (db', inr res) →
  ∃ r, row_with_email (prop user "email") db' = Some r
    ∧ rows db' = rows db ++ [r]
    ∧ column_text (prop user "firstname") = inr (firstname r)
    ∧ column_text (prop user "lastname") = inr (lastname r)
    ∧ prop user "email" = VStr (email r)
    ∧ bcrypt_hash (prop user "password") 12 salt = inr (password r)
    ∧ email r ≠ ""
    ∧ createdAt r = created stamps ∧ updatedAt r = updated stamps
    ∧ res = {| status := 201; body := Text (pretty (id r)) |}.
Proof.
  intros Hrefl Hrun.
  apply createUser_try_row in Hrun
    as (user' & r & [= <-] & Hnone & Hrows & Hf & Hl & He & Hh & _ & _ & Ne & _ & Hc & Hu & ->).
  exists r. repeat split; try done.
  unfold row_with_email in *. rewrite Hrows, (find_app_None _ _ _ Hnone), He. simpl.
  by rewrite Hrefl.
Qed.

(** X12: registration and lookup by email compose. After a registration that
    succeeded, [findUserByEmail] with the email registered answers 200 with
    the id the registration answered, the email of the body and the
    firstname and lastname as the table keeps them: a text of the body as it
    is, a number or a boolean as the engine writes it (the storage engine
    finding a text equal to itself). *)
Theorem createUser_then_findUserByEmail (user query : obj) (salt : string) (stamps : Stamps)
    (db db' : Database) (res : Response) :
  (∀ s, where_eq (VStr s) s = true) →
  createUser_try (Some user) salt stamps db = (db', inr res) →
  prop query "email" = prop user "email" →
  ∃ k first last,
    res = {| status := 201; body := Text (pretty k) |}
    ∧ column_text (prop user "firstname") = inr first
    ∧ column_text (prop user "lastname") = inr last
    ∧ (findUserByEmail query db').2
      = success {| status := 200;
                   body := Json {[ "id" := VNum k;
                                   "firstname" := VStr first;
                                   "lastname" := VStr last;
                                   "email" := prop user "email" ]} |}.
Proof.
  intros Hrefl Hrun Hquery.
  destruct (createUser_try_finds _ _ _ _ _ _ Hrefl Hrun)
    as (r & Hfound & _ & Hf & Hl & He & _ & Hne & _ & _ & ->).
  exists (id r), (firstname r), (lastname r). do 3 (split; [done|]).
  run. rewrite Hquery, He in *.
  assert (Ht : truthy (VStr (email r)) = true).
  { simpl. apply negb_true_iff. by apply String.eqb_neq. }
  rewrite Ht. simpl. rewrite Hfound. cbn [fmap option_fmap option_map].
  by rewrite dataValues_attributes.
Qed.

(** X13: registration and authentication compose. After a registration that
    succeeded, credentials with the email registered and a password are
    answered 200 with the row registered, less its password, when
    [bcrypt.compare] finds that the password verifies against the hash the
    registration computed: the id answered, the names as the table keeps
    them, the email and the two time stamps of the insertion; and 401
    "Invalid credentials" when it finds that it does not. *)
Theorem createUser_then_authenticateUser (user credentials : obj) (salt h : string)
    (stamps : Stamps) (db db' : Database) (res : Response) :
  (∀ s, where_eq (VStr s) s = true) →
  createUser_try (Some user) salt stamps db = (db', inr res) →
  bcrypt_hash (prop user "password") 12 salt = inr h →
  prop credentials "email" = prop user "email" →
  truthy (prop credentials "password") = true →
  (bcrypt_compare (prop credentials "password") (VStr h) = inr true →
   ∃ k first last sent,
     res = {| status := 201; body := Text (pretty k) |}
     ∧ column_text (prop user "firstname") = inr first
     ∧ column_text (prop user "lastname") = inr last
     ∧ (authenticateUser (Some credentials) db').2
       = success {| status := 200; body := Json sent |}
     ∧ json_members sent
       = {[ "id" := VNum k;
            "firstname" := VStr first;
            "lastname" := VStr last;
            "email" := prop user "email";
            "createdAt" := VObject (created stamps);
            "updatedAt" := VObject (updated stamps) ]})
  ∧ (bcrypt_compare (prop credentials "password") (VStr h) = inr false →
     (authenticateUser (Some credentials) db').2 = failure 401 "Invalid credentials").
Proof.
  intros Hrefl Hrun Hhash Hemail Hpassword.
  destruct (createUser_try_finds _ _ _ _ _ _ Hrefl Hrun)
    as (r & Hfound & _ & Hf & Hl & He & Hh & Hne & Hc & Hu & ->).
  rewrite Hhash in Hh. injection Hh as ->.
  assert (Ht : truthy (prop credentials "email") = true).
  { rewrite Hemail, He. simpl. apply negb_true_iff. by apply String.eqb_neq. }
  rewrite <- Hemail in Hfound.
  split.
  - intros Hcompare.
    exists (id r), (firstname r), (lastname r),
      (<["password" := VUndefined]> (dataValues None r)).
    do 3 (split; [done|]).
    rewrite json_members_scrubbed, He, Hc, Hu. split; [|done].
    rewrite (authenticateUser_found _ _ r) by done. by rewrite Hcompare.
  - intros Hcompare. apply authenticateUser_turned_down; [done..|].
    right. by exists r.
Qed.

(** ** Rejections by [bcrypt] *)

(** [bcrypt.hash] rejects a password that is not a text. *)
Lemma bcrypt_hash_not_text (s : value) (rounds : Z) (salt : string) :
  (∀ p, s ≠ VStr p) →
  bcrypt_hash s rounds salt
  = inl (library_error ("Illegal arguments: " +:+ typeof s +:+ ", number")).
Proof. intros Hs. destruct s; try done. by destruct (Hs s). Qed.

(** X14: a registration whose password [bcrypt.hash] rejects. When the body
    passes [validateUser] and no row has its email, a rejection of
    [bcrypt.hash] goes to the error handler after the one query by email and
    nothing is inserted; in particular a password that is present but not a
    text (a number, [true], an object) is answered 500 with the message
    "Illegal arguments: <type>, number". *)
Theorem createUser_hash_rejected (user : obj) (salt : string) (stamps : Stamps) (db : Database) :
  validateUser (Some user) ["firstname"; "lastname"; "email"; "password"] = inr tt →
  row_with_email (prop user "email") db = None →
  (∀ error, bcrypt_hash (prop user "password") 12 salt = inl error →
     createUser (Some user) salt stamps db
     = (looked_up (prop user "email") db, errorHandler error))
  ∧ ((∀ p, prop user "password" ≠ VStr p) →
     createUser (Some user) salt stamps db
     = (looked_up (prop user "email") db,
        failure 500 ("Illegal arguments: " +:+ typeof (prop user "password")
                     +:+ ", number"))).
Proof.
  intros Hv Hnone.
  assert (Ht : truthy (prop user "email") = true).
  { apply validateUser_inr in Hv as (user' & [= <-] & Hfields).
    apply Hfields; [repeat constructor|].
    by destruct validationRules_labels as (_ & _ & -> & _). }
  assert (Hreject : ∀ error, bcrypt_hash (prop user "password") 12 salt = inl error →
     createUser (Some user) salt stamps db
     = (looked_up (prop user "email") db, errorHandler error)).
  { intros error Hhash. run. rewrite Hv. simpl. rewrite Ht. simpl.
    rewrite Hnone. cbn [fmap option_fmap option_map]. by rewrite Hhash. }
  split; [done|].
  intros Htext. by rewrite (Hreject _ (bcrypt_hash_not_text _ _ _ Htext)).
Qed.

(** X15: what [authenticateUser] answers once the lookup has found a row.
    With an email and a password present and a row found for the email, the
    verdict of [bcrypt.compare] on the password and the hash of that row
    decides: 200 with the row, its password set to [undefined], when it
    verifies; 401 "Invalid credentials" when it does not; and the error
    handler's answer to the rejection when it rejects. One query by email is
    made in each case. *)
Theorem authenticateUser_verdict (credentials : obj) (db : Database) (u : UserRow) :
  truthy (prop credentials "email") = true →
  truthy (prop credentials "password") = true →
  row_with_email (prop credentials "email") db = Some u →
  (authenticateUser (Some credentials) db).1 = looked_up (prop credentials "email") db
  ∧ (bcrypt_compare (prop credentials "password") (VStr (password u)) = inr true →
     (authenticateUser (Some credentials) db).2
     = success {| status := 200;
                  body := Json (<["password" := VUndefined]> (dataValues None u)) |})
  ∧ (bcrypt_compare (prop credentials "password") (VStr (password u)) = inr false →
     (authenticateUser (Some credentials) db).2 = failure 401 "Invalid credentials")
  ∧ (∀ error,
     bcrypt_compare (prop credentials "password") (VStr (password u)) = inl error →
     (authenticateUser (Some credentials) db).2 = errorHandler error).
Proof.
  intros Hemail Hpassword Hfound. split.
  - run. rewrite (validateUser_credentials _ Hemail Hpassword). simpl.
    rewrite Hfound. cbn [fmap option_fmap option_map]. rewrite dataValues_password.
    by destruct (bcrypt_compare _ _) as [e|[|]].
  - rewrite (authenticateUser_found _ _ u) by done.
    split; [by intros ->|]. split; [|by intros error ->].
    intros ->. by apply errorHandler_createError.
Qed.

(** ** [getUserById] *)

(** X16: [getUserById] throws 400 "User ID cannot be undefined" for a falsy
    id, the number 0 included, before any query: the record of statements is
    as it was. For a truthy id it makes one query by key, then throws 400 "A
    user with the given ID <id> could not be found" when no row has the key,
    and otherwise returns the instance of the first row with the key, with
    all its seven columns, the password hash among them. Rows and counter are
    as they were in each case. *)
Theorem getUserById_cases (key_eq : value → Z → bool) (key : value) (db : Database) :
  (truthy key = false →
     getUserById key_eq key db
     = (db, inl {| code := Some 400%Z; message := "User ID cannot be undefined" |}))
  ∧ (truthy key = true →
     (∀ r, r ∈ rows db → key_eq key (id r) = false) →
     getUserById key_eq key db
     = (looked_up_by_key key db,
        inl {| code := Some 400%Z;
               message := "A user with the given ID " +:+ template key
                          +:+ " could not be found" |}))
  ∧ (∀ u, truthy key = true →
     List.find (λ r, key_eq key (id r)) (rows db) = Some u →
     getUserById key_eq key db = (looked_up_by_key key db, inr (dataValues None u))
     ∧ prop (dataValues None u) "password" = VStr (password u)
     ∧ dom (dataValues None u)
       = {[ "id"; "firstname"; "lastname"; "email"; "password";
            "createdAt"; "updatedAt" ]})
  ∧ statements (looked_up_by_key key db) = statements db ++ [SelectByPk key]
  ∧ rows (looked_up_by_key key db) = rows db
  ∧ auto_increment (looked_up_by_key key db) = auto_increment db.
Proof.
  unfold getUserById, User_findByPk, mbind, M_bind, mret, M_ret, throw.
  split; [|split; [|split; [|done]]].
  - by intros ->.
  - intros -> Hnone. simpl.
    assert (Hfind : List.find (λ r, key_eq key (id r)) (rows db) = None).
    { induction (rows db) as [|r l IH]; [done|]. simpl.
      rewrite (Hnone r) by left. apply IH. intros r' Hr'. apply Hnone. by right. }
    rewrite Hfind. simpl. by rewrite createError_given.
  - intros u -> Hfind. simpl. rewrite Hfind. simpl.
    split; [done|]. split; [apply dataValues_password|].
    destruct u. reflexivity.
Qed.

(** X17: the error handler never sends a blank answer. Whatever the error,
    the status it sets is not 0, the body is a text that is not empty, and
    exactly one line is written to the console. *)
Theorem errorHandler_never_blank (error : Error) :
  status (response (errorHandler error)) ≠ 0%Z
  ∧ (∃ text, body (response (errorHandler error)) = Text text ∧ text ≠ "")
  ∧ length (console (errorHandler error)) = 1%nat.
Proof.
  destruct error as [c m]. unfold errorHandler. simpl. split; [|split; [|done]].
  - unfold or_code. destruct c as [k|]; [|done].
    destruct (k =? 0)%Z eqn:E; [done|]. by apply Z.eqb_neq in E.
  - eexists. split; [done|]. unfold or_text.
    destruct (String.eqb m "") eqn:E; [done|]. by apply String.eqb_neq in E.
Qed.
End Properties.

(** ** The theorems at work on the sample data *)

(** C8, as stated, fails: an error with code 400 and an empty message is
    answered with the default text, not with its (empty) message. *)
Lemma errorHandler_empty_message_counterexample :
  let error := {| code := Some 400%Z; message := "" |} in
  body (response (errorHandler error)) ≠ Text (message error)
  ∧ body (response (errorHandler error)) = Text "Oops! Something went wrong".
Proof. split; [discriminate | reflexivity]. Qed.

Lemma errorHandler_response_witness :
  let error := {| code := Some 409%Z; message := "This email is already taken." |} in
  status (response (errorHandler error)) = 409%Z
  ∧ body (response (errorHandler error)) = Text "This email is already taken."
  ∧ console (errorHandler error) = ["Status Code 409: This email is already taken."].
Proof.
  pose proof (errorHandler_response {| code := Some 409%Z; message := "This email is already taken." |})
    as (Hcode & _ & Hmsg & _ & _).
  split; [apply (Hcode 409%Z); [reflexivity | discriminate]|].
  split; [apply Hmsg; discriminate|].
  reflexivity.
Defined.


Lemma validateFields_first_offender_witness :
  validateFields (Some {[ "firstname" := VStr "John" ]})
                 (Some {[ "firstname" := VStr "Firstname"; "password" := VStr "Password" ]})
                 (Some ["firstname"; "password"])
  = inl {| code := Some 400%Z; message := "Password cannot be undefined" |}
  ∧ createUser (H := plain_libraries)
      (Some {[ "lastname" := VStr "B"; "email" := VStr "a@b.com"; "password" := VStr "secret" ]})
      "salt" sample_stamps synced
    = (synced, failure 400 "Firstname cannot be undefined").
Proof.
  destruct (validateFields_first_offender (H := plain_libraries)) as (_ & Hfirst & Hcreate).
  split.
  - etrans.
    { apply (Hfirst {[ "firstname" := VStr "John" ]}
               {[ "firstname" := VStr "Firstname"; "password" := VStr "Password" ]}
               ["firstname"] [] "password").
      + intros E. by apply (f_equal (λ m : obj, m !! "firstname")) in E.
      + intros E. by apply (f_equal (λ m : obj, m !! "firstname")) in E.
      + intros g Hg _. apply list_elem_of_singleton in Hg as ->. reflexivity.
      + reflexivity.
      + reflexivity. }
    reflexivity.
  - etrans.
    { apply (Hcreate {[ "lastname" := VStr "B"; "email" := VStr "a@b.com";
                        "password" := VStr "secret" ]} "firstname" "salt" sample_stamps
               synced).
      + repeat constructor.
      + reflexivity.
      + intros g Hg Hne.
        repeat (apply elem_of_cons in Hg as [->|Hg]); [done | reflexivity ..|].
        by apply elem_of_nil in Hg. }
    reflexivity.
Defined.

(** C1, as stated, fails: the email has a row, the password 123 is present
    and does not verify against the stored hash, and the answer is 500, not
    401, while an unknown email with the same password is answered 401. *)
Lemma authenticateUser_number_password_counterexample :
  let credentials : obj := {[ "email" := VStr "a@b.com"; "password" := VNum 123 ]} in
  let unknown : obj := {[ "email" := VStr "nobody@b.com"; "password" := VNum 123 ]} in
  truthy (prop credentials "email") = true
  ∧ truthy (prop credentials "password") = true
  ∧ row_with_email (H := plain_libraries) (prop credentials "email") sample_table
    = Some sample_row
  ∧ bcrypt_compare (H := plain_libraries) (prop credentials "password")
      (VStr (password sample_row)) ≠ inr true
  ∧ (authenticateUser (H := plain_libraries) (Some credentials) sample_table).2
    = failure 500 "Illegal arguments: number, string"
  ∧ (authenticateUser (H := plain_libraries) (Some credentials) sample_table).2
    ≠ failure 401 "Invalid credentials"
  ∧ (authenticateUser (H := plain_libraries) (Some unknown) sample_table).2
    = failure 401 "Invalid credentials".
Proof. repeat split; (reflexivity || discriminate). Qed.

Lemma authenticateUser_invalid_credentials_witness :
  (authenticateUser (H := plain_libraries)
     (Some {[ "email" := VStr "nobody@b.com"; "password" := VStr "secret" ]})
     sample_table).2
  = failure 401 "Invalid credentials"
  ∧ (authenticateUser (H := plain_libraries) (Some (sample_credentials "wrong"))
       sample_table).2
    = failure 401 "Invalid credentials"
  ∧ (authenticateUser (H := plain_libraries)
       (Some {[ "email" := VStr "a@b.com"; "password" := VBool true ]}) sample_table).2
    = failure 500 "Illegal arguments: boolean, string".
Proof.
  split; [|split].
  - apply (authenticateUser_invalid_credentials (H := plain_libraries)
             {[ "email" := VStr "nobody@b.com"; "password" := VStr "secret" ]} sample_table);
      [reflexivity..|].
    left. intros r Hr. apply list_elem_of_singleton in Hr as ->. reflexivity.
  - apply (authenticateUser_invalid_credentials (H := plain_libraries)
             (sample_credentials "wrong") sample_table); [reflexivity..|].
    right. exists sample_row. split; reflexivity.
  - destruct (authenticateUser_invalid_credentials (H := plain_libraries)
                {[ "email" := VStr "a@b.com"; "password" := VBool true ]} sample_table)
      as [_ Hrejected]; [reflexivity..|].
    apply (Hrejected sample_row); [reflexivity|].
    intros p Hp. discriminate Hp.
Defined.

Lemma authenticateUser_scrubs_password_witness :
  ∃ db' res sent,
    authenticateUser (H := plain_libraries) (Some (sample_credentials "secret")) sample_table
    = (db', success res)
    ∧ status res = 200%Z
    ∧ body res = Json sent
    ∧ json_members sent !! "password" = None
    ∧ json_members sent !! "email" = Some (VStr "a@b.com")
    ∧ json_members sent !! "createdAt" = Some (VObject sample_instant).
Proof.
  pose (db' := looked_up (VStr "a@b.com") sample_table).
  pose (res := {| status := 200;
                  body := Json (<["password" := VUndefined]> (dataValues None sample_row)) |}).
  destruct (authenticateUser_scrubs_password (H := plain_libraries)
              (Some (sample_credentials "secret")) sample_table db' res)
    as (Hsent & Hstatus & credentials & u & sent & _ & _ & Hbody & _ & Hpassword & Hmembers).
  { reflexivity. }
  exists db', res, sent. repeat split; try done.
  - injection Hbody as <-. reflexivity.
  - injection Hbody as <-. reflexivity.
Defined.

Lemma register_then_authenticate_witness :
  ∃ db,
    createUser (H := plain_libraries) (Some sample_registration) "salt" sample_stamps synced
    = (db, success {| status := 201; body := Text "1" |})
    ∧ (∃ sent,
        (authenticateUser (H := plain_libraries) (Some (sample_credentials "secret")) db).2
        = success {| status := 200; body := Json sent |}
        ∧ json_members sent
          = {[ "id" := VNum 1; "firstname" := VStr "A"; "lastname" := VStr "B";
               "email" := VStr "a@b.com";
               "createdAt" := VObject sample_instant;
               "updatedAt" := VObject sample_instant ]}
        ∧ json_members sent !! "password" = None)
    ∧ (authenticateUser (H := plain_libraries) (Some (sample_credentials "wrong")) db).2
      = failure 401 "Invalid credentials".
Proof.
  apply (register_then_authenticate (H := plain_libraries) "salt"
           (plain_hash "secret" "salt") sample_stamps);
    reflexivity.
Defined.

(** A registration with a number for a firstname. *)
Lemma createUser_inserts_hashed_witness :
  let body : obj := {[ "firstname" := VNum 5; "lastname" := VStr "B";
                       "email" := VStr "a@b.com"; "password" := VStr "secret" ]} in
  ∃ db' r,
    createUser (H := plain_libraries) (Some body) "salt" sample_stamps synced
    = (db', success {| status := 201; body := Text "1" |})
    ∧ rows db' = rows synced ++ [r]
    ∧ password r = "$2a$12$salt$secret"
    ∧ password r ≠ "secret".
Proof.
  pose (body := {[ "firstname" := VNum 5; "lastname" := VStr "B";
                   "email" := VStr "a@b.com"; "password" := VStr "secret" ]} : obj).
  pose (row := {| id := 1; firstname := "5"; lastname := "B"; email := "a@b.com";
                  password := plain_hash "secret" "salt";
                  createdAt := sample_instant; updatedAt := sample_instant |}).
  pose (db' := {| rows := [row]; auto_increment := 2;
                  statements := [Select (VStr "a@b.com"); Insert row] |}).
  destruct (createUser_inserts_hashed (H := plain_libraries)
              (Some body) "salt" sample_stamps synced db'
              {| status := 201; body := Text "1" |})
    as (Hsent & user & h & r & [= <-] & Hhash & Hrows & Hpassword & _).
  { reflexivity. }
  exists db', r. split; [exact Hsent|]. split; [exact Hrows|].
  assert (Hh : h = "$2a$12$salt$secret") by (vm_compute in Hhash; congruence).
  rewrite Hpassword, Hh. by split.
Defined.

Lemma createUser_duplicate_email_witness :
  (createUser (H := plain_libraries) (Some sample_registration) "pepper" sample_stamps
     sample_table).2
  = failure 409 "This email is already taken.".
Proof.
  assert (Hrefl : ∀ s, where_eq (Libraries := plain_libraries) (VStr s) s = true).
  { intros s. apply String.eqb_refl. }
  destruct (createUser_duplicate_email (H := plain_libraries) Hrefl) as [_ Htwice].
  apply (Htwice sample_registration "salt" "pepper" sample_stamps sample_stamps
           synced sample_table {| status := 201; body := Text "1" |}).
  reflexivity.
Defined.

Lemma findUserByEmail_cases_witness :
  (findUserByEmail (H := plain_libraries) ∅ sample_table).2 = failure 400 "Invalid email"
  ∧ (findUserByEmail (H := plain_libraries) {[ "email" := VStr "nobody@b.com" ]}
       sample_table).2
    = failure 400 "Could not find a user with the given email"
  ∧ (findUserByEmail (H := plain_libraries) {[ "email" := VStr "a@b.com" ]} sample_table).2
    = success {| status := 200;
                 body := Json {[ "id" := VNum 1; "firstname" := VStr "A";
                                 "lastname" := VStr "B"; "email" := VStr "a@b.com" ]} |}.
Proof.
  split; [|split].
  - apply (findUserByEmail_cases (H := plain_libraries) ∅ sample_table). reflexivity.
  - apply (findUserByEmail_cases (H := plain_libraries)
             {[ "email" := VStr "nobody@b.com" ]} sample_table).
    + reflexivity.
    + intros r Hr. apply list_elem_of_singleton in Hr as ->. reflexivity.
  - destruct (findUserByEmail_cases (H := plain_libraries)
                {[ "email" := VStr "a@b.com" ]} sample_table) as (_ & _ & Hfound).
    destruct (Hfound sample_row) as (sent & Hsent & -> & _); [reflexivity..|].
    exact Hsent.
Defined.

Lemma createUser_failure_inserts_nothing_witness :
  ∃ db', createUser (H := plain_libraries) (Some sample_registration) "pepper"
           sample_stamps sample_table
         = (db', failure 409 "This email is already taken.")
    ∧ rows db' = rows sample_table
    ∧ auto_increment db' = auto_increment sample_table.
Proof.
  exists (looked_up (VStr "a@b.com") sample_table).
  destruct (createUser_failure_inserts_nothing (H := plain_libraries)
              (Some sample_registration) "pepper" sample_stamps sample_table
              (looked_up (VStr "a@b.com") sample_table)
              (createError (Some 409%Z) (Some "This email is already taken.")))
    as (Hsent & Hrows & Hcounter & _).
  { reflexivity. }
  split; [|by split]. rewrite Hsent. reflexivity.
Defined.

Lemma findUserByEmail_falsy_email_witness :
  findUserByEmail (H := plain_libraries) {[ "email" := VStr "" ]} sample_table
  = (sample_table, failure 400 "Invalid email")
  ∧ findUserByEmail (H := plain_libraries) ∅ sample_table
    = (sample_table, failure 400 "Invalid email").
Proof.
  split.
  - apply (proj1 (findUserByEmail_falsy_email (H := plain_libraries)
                    {[ "email" := VStr "" ]} sample_table)).
    reflexivity.
  - apply (proj2 (findUserByEmail_falsy_email (H := plain_libraries) ∅ sample_table)).
    right. reflexivity.
Defined.

Lemma validateFields_fails_with_400_witness :
  ∃ error,
    validateFields (Some {[ "constructor" := VStr "" ]})
                   (Some {[ "password" := VStr "Password" ]}) (Some ["constructor"])
    = inl error
    ∧ code error = Some 400%Z
    ∧ message error = "function Object() { [native code] } cannot be undefined".
Proof.
  exists {| code := Some 400%Z;
            message := "function Object() { [native code] } cannot be undefined" |}.
  destruct (validateFields_fails_with_400
              (Some {[ "constructor" := VStr "" ]})
              (Some {[ "password" := VStr "Password" ]}) (Some ["constructor"])
              {| code := Some 400%Z;
                 message := "function Object() { [native code] } cannot be undefined" |})
    as (Hcode & _ & _); [reflexivity|].
  by repeat split.
Defined.

Lemma validateFields_only_listed_fields_witness :
  validateFields (Some {[ "firstname" := VStr "John" ]})
                 (Some {[ "firstname" := VStr "Firstname" ]}) (Some ["firstname"])
  = validateFields (Some {[ "firstname" := VStr "Jane"; "age" := VNum 0 ]})
                   (Some {[ "firstname" := VStr "Firstname" ]}) (Some ["firstname"]).
Proof.
  apply validateFields_only_listed_fields.
  - intros E. by apply (f_equal (λ m : obj, m !! "firstname")) in E.
  - intros E. by apply (f_equal (λ m : obj, m !! "firstname")) in E.
  - intros fs g [= <-] Hg. apply list_elem_of_singleton in Hg as ->. reflexivity.
Defined.

Lemma row_with_email_stable_witness :
  row_with_email (H := plain_libraries) (VStr "a@b.com")
    (serve (H := plain_libraries)
       [POST_users (Some sample_registration) "pepper" sample_stamps;
        POST_users (Some {[ "firstname" := VStr "C"; "lastname" := VStr "D";
                            "email" := VStr "c@d.com"; "password" := VStr "hidden" ]})
                   "salt" sample_stamps;
        GET_users {[ "email" := VStr "c@d.com" ]}]
       sample_table).1
  = Some sample_row.
Proof. apply (row_with_email_stable (H := plain_libraries)). reflexivity. Defined.

Lemma serve_keeps_emails_unique_witness :
  NoDup (email <$> rows
           (serve (H := plain_libraries)
              [POST_users (Some sample_registration) "salt" sample_stamps;
               POST_users (Some sample_registration) "pepper" sample_stamps]
              synced).1).
Proof.
  apply (serve_keeps_emails_unique (H := plain_libraries)).
  - intros s. apply String.eqb_refl.
  - apply NoDup_nil_2.
Defined.

Lemma createUser_then_findUserByEmail_witness :
  ∃ k first last,
    {| status := 201; body := Text "1" |} = {| status := 201; body := Text (pretty k) |}
    ∧ column_text (H := plain_libraries) (prop sample_registration "firstname") = inr first
    ∧ column_text (H := plain_libraries) (prop sample_registration "lastname") = inr last
    ∧ (findUserByEmail (H := plain_libraries) {[ "email" := VStr "a@b.com" ]}
         sample_table).2
      = success {| status := 200;
                   body := Json {[ "id" := VNum k;
                                   "firstname" := VStr first;
                                   "lastname" := VStr last;
                                   "email" := prop sample_registration "email" ]} |}.
Proof.
  apply (createUser_then_findUserByEmail (H := plain_libraries)
           sample_registration {[ "email" := VStr "a@b.com" ]} "salt" sample_stamps
           synced sample_table).
  - intros s. apply String.eqb_refl.
  - reflexivity.
  - reflexivity.
Defined.

Lemma createUser_then_authenticateUser_witness :
  (authenticateUser (H := plain_libraries) (Some (sample_credentials "wrong"))
     sample_table).2
  = failure 401 "Invalid credentials".
Proof.
  apply (createUser_then_authenticateUser (H := plain_libraries)
           sample_registration (sample_credentials "wrong") "salt"
           (plain_hash "secret" "salt") sample_stamps synced sample_table
           {| status := 201; body := Text "1" |}).
  - intros s. apply String.eqb_refl.
  - reflexivity.
  - reflexivity.
  - reflexivity.
  - reflexivity.
  - reflexivity.
Defined.

Lemma createUser_hash_rejected_witness :
  let body : obj := {[ "firstname" := VStr "A"; "lastname" := VStr "B";
                       "email" := VStr "a@b.com"; "password" := VNum 123 ]} in
  createUser (H := plain_libraries) (Some body) "salt" sample_stamps synced
  = (looked_up (VStr "a@b.com") synced, failure 500 "Illegal arguments: number, number").
Proof.
  destruct (createUser_hash_rejected (H := plain_libraries)
              {[ "firstname" := VStr "A"; "lastname" := VStr "B";
                 "email" := VStr "a@b.com"; "password" := VNum 123 ]}
              "salt" sample_stamps synced) as [_ Hrejected]; [reflexivity..|].
  apply Hrejected. intros p Hp. discriminate Hp.
Defined.

Lemma authenticateUser_verdict_witness :
  (authenticateUser (H := plain_libraries) (Some (sample_credentials "secret"))
     sample_table).1
  = looked_up (VStr "a@b.com") sample_table
  ∧ (authenticateUser (H := plain_libraries) (Some (sample_credentials "secret"))
       sample_table).2
    = success {| status := 200;
                 body := Json (<["password" := VUndefined]> (dataValues None sample_row)) |}.
Proof.
  destruct (authenticateUser_verdict (H := plain_libraries) (sample_credentials "secret")
              sample_table sample_row) as (Hdb & Hyes & _); [reflexivity..|].
  split; [exact Hdb | apply Hyes; reflexivity].
Defined.

Lemma getUserById_cases_witness :
  getUserById plain_key_eq (VNum 0) sample_table
  = (sample_table, inl {| code := Some 400%Z; message := "User ID cannot be undefined" |})
  ∧ getUserById plain_key_eq (VNum 7) sample_table
    = (looked_up_by_key (VNum 7) sample_table,
       inl {| code := Some 400%Z;
              message := "A user with the given ID 7 could not be found" |})
  ∧ getUserById plain_key_eq (VNum 1) sample_table
    = (looked_up_by_key (VNum 1) sample_table, inr (dataValues None sample_row)).
Proof.
  split; [|split].
  - apply (proj1 (getUserById_cases plain_key_eq (VNum 0) sample_table)). reflexivity.
  - apply (proj1 (proj2 (getUserById_cases plain_key_eq (VNum 7) sample_table)));
      [reflexivity|].
    intros r Hr. apply list_elem_of_singleton in Hr as ->. reflexivity.
  - apply (proj1 (proj2 (proj2 (getUserById_cases plain_key_eq (VNum 1) sample_table)))
             sample_row); reflexivity.
Defined.
